(** * motion-api-bot: the command relay of [bot/api.py]

    A shallow embedding of class [Api]: the command handlers, the
    registration of the listeners and the error callback, together with a
    small model of the two libraries the class talks to (the HTTP client
    and the chat transport).  Python statements are written in a monad
    that threads the [Api] object, reads the outside world, records the
    effects in a trace and may raise. *)

From Stdlib.Strings Require Import Byte Ascii.
From stdpp Require Import base option list strings gmap.

Open Scope string_scope.
Open Scope list_scope.

(** ** Python values and exceptions *)

(** What [bot.send_message] is given as [text]: a [str] (the configured
    version, the fixed apology) or the [bytes] of a response body. *)
Inductive pytext :=
  | PyStr (s : string)
  | PyBytes (b : list byte).

(** The exception classes that can reach this module: Python's own, those
    of [requests.exceptions] and those of [telegram.error]. *)
Inductive pyclass :=
  | PyException
  | PyLookupError | PyKeyError | PyAttributeError | PyOSError | PyTypeError
  | RequestException | RequestsConnectionError | RequestsTimeout
  | TelegramError | Unauthorized | InvalidToken | NetworkError
  | BadRequest | TimedOut | ChatMigrated | RetryAfter.

Global Instance pyclass_eq_dec : EqDecision pyclass.
Proof. solve_decision. Defined.

(** The direct base class ([None] for [Exception], the root used here). *)
Definition base_class (c : pyclass) : option pyclass :=
  match c with
  | PyException => None
  | PyLookupError | PyAttributeError | PyOSError | PyTypeError | TelegramError =>
      Some PyException
  | PyKeyError => Some PyLookupError
  | RequestException => Some PyOSError
  | RequestsConnectionError | RequestsTimeout => Some RequestException
  | Unauthorized | InvalidToken | NetworkError | ChatMigrated | RetryAfter =>
      Some TelegramError
  | BadRequest | TimedOut => Some NetworkError
  end.

Fixpoint issubclass_upto (depth : nat) (c d : pyclass) : bool :=
  if decide (c = d) then true
  else match depth, base_class c with
       | S depth', Some b => issubclass_upto depth' b d
       | _, _ => false
       end.

(** No class above is more than four steps away from [Exception]. *)
Definition issubclass : pyclass → pyclass → bool := issubclass_upto 4.

Record exception := Exc { exc_class : pyclass; exc_args : string }.

Global Instance exception_eq_dec : EqDecision exception.
Proof. solve_decision. Defined.

Definition isinstance (e : exception) (c : pyclass) : bool :=
  issubclass (exc_class e) c.

(** ** The outside world *)

(** A [requests.Response], as far as the handlers look at it. *)
Record Response := { status_code : Z; content : list byte }.

(** The answers of the two remote parties during one handler call:
    [requests.get] returns a response or raises; [bot.send_message]
    delivers the message and returns, or raises without delivering. *)
Record World := {
  requests_get : string → Response + exception;
  telegram_send : Z → pytext → option exception
}.

(** On Python 3, the language the class is written for, the body of a
    response ([response.content]) is a [bytes] object, and the transport
    cannot encode one as the text of a message: [bot.send_message]
    raises [TypeError] before anything is sent.  A world is that of a
    Python 3 process when its transport answers so. *)
Definition python3_bot (w : World) : Prop :=
  ∀ c b, ∃ args, telegram_send w c (PyBytes b) = Some (Exc PyTypeError args).

(** The transport of a Python 3 process that does with a [str] text what
    [deliver] says. *)
Definition python3_send (deliver : Z → string → option exception)
    (c : Z) (t : pytext) : option exception :=
  match t with
  | PyBytes _ => Some (Exc PyTypeError "Object of type bytes is not JSON serializable")
  | PyStr s => deliver c s
  end.

(** Observable effects, in program order. *)
Inductive event :=
  | EvLog (msg : string)                        (* logger.info(msg) *)
  | EvPrint (msg : string)                      (* print(msg) *)
  | EvGet (url : string)                        (* requests.get(url) *)
  | EvSend (chat_id : Z) (text : pytext)        (* send_message, delivered *)
  | EvSendFailed (chat_id : Z) (text : pytext). (* send_message, raised *)

Definition gets (tr : list event) : list string :=
  omap (λ ev, match ev with EvGet u => Some u | _ => None end) tr.

(** Replies that reached a chat. *)
Definition replies (tr : list event) : list (Z * pytext) :=
  omap (λ ev, match ev with EvSend c t => Some (c, t) | _ => None end) tr.

(** Every call of [send_message], delivered or not. *)
Definition send_calls (tr : list event) : list (Z * pytext) :=
  omap (λ ev, match ev with
              | EvSend c t | EvSendFailed c t => Some (c, t)
              | _ => None
              end) tr.

Definition logs (tr : list event) : list string :=
  omap (λ ev, match ev with EvLog m => Some m | _ => None end) tr.

Definition prints (tr : list event) : list string :=
  omap (λ ev, match ev with EvPrint m => Some m | _ => None end) tr.

(** ** The transport library's objects (telegram.ext) *)

(** A bound method of the [Api] object, kept by its attribute name. *)
Inductive callback := BoundMethod (name : string).

Global Instance callback_eq_dec : EqDecision callback.
Proof. solve_decision. Defined.

Inductive Filter := Filters_all | Filters_command.

Inductive Handler :=
  | CommandHandler (command : string) (cb : callback)
  | MessageHandler (filters : Filter) (cb : callback).

Global Instance Filter_eq_dec : EqDecision Filter.
Proof. solve_decision. Defined.
Global Instance Handler_eq_dec : EqDecision Handler.
Proof. solve_decision. Defined.

Definition handler_callback (h : Handler) : callback :=
  match h with CommandHandler _ cb | MessageHandler _ cb => cb end.

Record Dispatcher := {
  handlers : list Handler;          (* group 0, in order of registration *)
  error_handlers : list callback
}.

Record Updater := {
  updater_token : string;
  dispatcher : Dispatcher;
  polling : bool
}.

(** The message of an inbound update.  The transport parses the text; the
    model keeps what it found: [command_token] is [Some name] when the
    text is command-shaped (begins with a slash) and addresses command
    [name], and [None] for any other message.  [Update] is an update
    whose [message] is set; the updates for which it is [None] are those
    of [AnyUpdate] below. *)
Record Message := { chat_id : Z; command_token : option string }.
Record Update := { message : Message }.

Record Bot := { bot_username : string }.

(** ** The Api object *)

Inductive log_sink := FileSink (path : string) | StdoutSink.

Record Logger := { logger_name : string; logger_sinks : list log_sink }.

Record Api := {
  logger : Logger;
  _log_folder : string;
  updater : option Updater;          (* class attribute, never assigned *)
  settings : gmap string string;
  _updater : option Updater          (* set by run *)
}.

(** ** The monad of method bodies *)

Inductive outcome (A : Type) :=
  | Returned (a : A)
  | Raised (e : exception).
Arguments Returned {A} a.
Arguments Raised {A} e.

Record result (A : Type) := Result {
  res_self : Api;
  res_trace : list event;
  res_outcome : outcome A
}.
Arguments Result {A} _ _ _.
Arguments res_self {A} _.
Arguments res_trace {A} _.
Arguments res_outcome {A} _.

Definition M (A : Type) : Type := World → Api → result A.

Definition ret {A} (a : A) : M A := λ _ self, Result self [] (Returned a).

Definition raise {A} (e : exception) : M A := λ _ self, Result self [] (Raised e).

Definition bind {A B} (m : M A) (k : A → M B) : M B := λ w self,
  match m w self with
  | Result self1 tr1 (Returned a) =>
      match k a w self1 with
      | Result self2 tr2 o => Result self2 (tr1 ++ tr2) o
      end
  | Result self1 tr1 (Raised e) => Result self1 tr1 (Raised e)
  end.

Notation "x <- m ;; k" := (bind m (λ x, k))
  (at level 100, m at next level, right associativity, only parsing).
Notation "m ;; k" := (bind m (λ _, k))
  (at level 100, right associativity, only parsing).

Definition get_self : M Api := λ _ self, Result self [] (Returned self).
Definition set_self (self' : Api) : M unit := λ _ _, Result self' [] (Returned tt).
Definition emit (ev : event) : M unit := λ _ self, Result self [ev] (Returned tt).
Definition ask_world : M World := λ w self, Result self [] (Returned w).

(** [try: body  except c1: h1  except c2: h2 ...]: the first clause whose
    class the raised exception is an instance of runs; with none, the
    exception goes on. *)
Fixpoint select_clause {A} (clauses : list (pyclass * (exception → M A)))
    (e : exception) : option (exception → M A) :=
  match clauses with
  | [] => None
  | (c, h) :: rest => if isinstance e c then Some h else select_clause rest e
  end.

Definition try_except {A} (body : M A)
    (clauses : list (pyclass * (exception → M A))) : M A := λ w self,
  match body w self with
  | Result self1 tr1 (Returned a) => Result self1 tr1 (Returned a)
  | Result self1 tr1 (Raised e) =>
      match select_clause clauses e with
      | Some h =>
          match h e w self1 with
          | Result self2 tr2 o => Result self2 (tr1 ++ tr2) o
          end
      | None => Result self1 tr1 (Raised e)
      end
  end.

(** [for x in xs: body x] *)
Fixpoint for_each {A} (xs : list A) (body : A → M unit) : M unit :=
  match xs with
  | [] => ret tt
  | x :: rest => body x ;; for_each rest body
  end.

(** ** Library calls *)

(** [self.logger.info(msg)] *)
Definition logger_info (msg : string) : M unit := emit (EvLog msg).

(** [print(msg)] *)
Definition print (msg : string) : M unit := emit (EvPrint msg).

(** [self.settings[key]]: a missing key raises [KeyError]. *)
Definition settings_getitem (key : string) : M string :=
  self <- get_self ;;
  match settings self !! key with
  | Some v => ret v
  | None => raise (Exc PyKeyError key)
  end.

(** [requests.get(address)] *)
Definition requests_dot_get (address : string) : M Response :=
  emit (EvGet address) ;;
  w <- ask_world ;;
  match requests_get w address with
  | inl response => ret response
  | inr e => raise e
  end.

(** [bot.send_message(chat_id=c, text=t)].  The dispatcher hands its one
    bot, the bot of the updater, to every callback, and [telegram_send w]
    is what the transport answers for that bot; so nothing here says how
    two different bots would compare. *)
Definition send_message (bot : Bot) (c : Z) (t : pytext) : M unit :=
  w <- ask_world ;;
  match telegram_send w c t with
  | None => emit (EvSend c t)
  | Some e => emit (EvSendFailed c t) ;; raise e
  end.

(** ** class Api: requests to the server and the command handlers *)

Definition api_commands : list string :=
  ["help"; "start"; "stop"; "info"; "version"; "test"].

Definition get_request_to_server (cmd : string) : M Response :=
  server_address <- settings_getitem "server_address" ;;
  let address := "http://" +:+ server_address +:+ "/v1/" +:+ cmd in
  requests_dot_get address.

Definition help (bot : Bot) (update : Update) : M unit :=
  logger_info "Received help command" ;;
  response <- get_request_to_server "help" ;;
  send_message bot (chat_id (message update)) (PyBytes (content response)).

Definition start (bot : Bot) (update : Update) : M unit :=
  logger_info "Received start command" ;;
  response <- get_request_to_server "start" ;;
  send_message bot (chat_id (message update)) (PyBytes (content response)).

Definition stop (bot : Bot) (update : Update) : M unit :=
  logger_info "Received stop command" ;;
  response <- get_request_to_server "stop" ;;
  send_message bot (chat_id (message update)) (PyBytes (content response)).

Definition info (bot : Bot) (update : Update) : M unit :=
  logger_info "Received info command" ;;
  response <- get_request_to_server "info" ;;
  send_message bot (chat_id (message update)) (PyBytes (content response)).

Definition version (bot : Bot) (update : Update) : M unit :=
  logger_info "Received version command" ;;
  v <- settings_getitem "version" ;;
  send_message bot (chat_id (message update)) (PyStr v).

Definition test (bot : Bot) (update : Update) : M unit :=
  logger_info "Received test command" ;;
  response <- get_request_to_server "test" ;;
  send_message bot (chat_id (message update)) (PyBytes (content response)).

Definition unknown (bot : Bot) (update : Update) : M unit :=
  logger_info "Received unknown command" ;;
  send_message bot (chat_id (message update)) (PyStr "Sorry, unknown command").

(** ** Updates without a message *)

(** What the transport may hand to a callback: an update that carries a
    message, or a channel post, for which [update.message] is [None]
    (the post is in [update.channel_post]).  A command listener accepts
    only the first kind; a [MessageHandler] accepts both, so channel
    posts reach the handler behind the fallback listener. *)
Inductive AnyUpdate :=
  | MessageUpdate (u : Update)
  | ChannelPostUpdate (post : Message).

(** [update.message.chat_id] *)
Definition message_chat_id (update : AnyUpdate) : M Z :=
  match update with
  | MessageUpdate u => ret (chat_id (message u))
  | ChannelPostUpdate _ => raise (Exc PyAttributeError "chat_id")
  end.

(** The method [unknown] on any update the fallback listener passes on;
    on an update with a message it is [unknown] above. *)
Definition unknown_on (bot : Bot) (update : AnyUpdate) : M unit :=
  logger_info "Received unknown command" ;;
  c <- message_chat_id update ;;
  send_message bot c (PyStr "Sorry, unknown command").

(** ** class Api: the error callback *)

(** The name [self.__error_callback] has inside the class. *)
Definition error_callback_name : string := "_Api__error_callback".

Definition __error_callback (bot : Bot) (update : option Update)
    (error : exception) : M unit :=
  try_except (raise error)
    [ (Unauthorized,  λ _, logger_info "Error Unauthorized found!");
      (BadRequest,    λ _, logger_info "Error BadRequest found!");
      (TimedOut,      λ _, logger_info "Error TimedOut found!");
      (NetworkError,  λ _, logger_info "Error NetworkError found!");
      (ChatMigrated,  λ _, logger_info "Error ChatMigrated found!");
      (TelegramError, λ _, logger_info "Error TelegramError found!") ].

(** ** class Api: attribute lookup *)

(** The methods of the object that take [(bot, update)]. *)
Definition Api_method (name : string) : option (Bot → Update → M unit) :=
  if decide (name = "help") then Some help
  else if decide (name = "start") then Some start
  else if decide (name = "stop") then Some stop
  else if decide (name = "info") then Some info
  else if decide (name = "version") then Some version
  else if decide (name = "test") then Some test
  else if decide (name = "unknown") then Some unknown
  else None.

(** The methods that take [(bot, update, error)]. *)
Definition Api_error_method (name : string)
    : option (Bot → option Update → exception → M unit) :=
  if decide (name = error_callback_name) then Some __error_callback else None.

(** [getattr(self, name)] for a handler name: the bound method, or
    [AttributeError] when the object has no such attribute. *)
Definition getattr (name : string) : M callback :=
  match Api_method name with
  | Some _ => ret (BoundMethod name)
  | None => raise (Exc PyAttributeError name)
  end.

(** ** Registration (telegram.ext.Dispatcher) *)

Definition add_handler (h : Handler) (d : Dispatcher) : Dispatcher :=
  {| handlers := handlers d ++ [h]; error_handlers := error_handlers d |}.

Definition add_error_handler (cb : callback) (d : Dispatcher) : Dispatcher :=
  {| handlers := handlers d; error_handlers := error_handlers d ++ [cb] |}.

(** [self._updater.dispatcher.<op>]: the object has no [_updater] before
    [run] has assigned one. *)
Definition with_dispatcher (op : Dispatcher → Dispatcher) : M unit :=
  self <- get_self ;;
  match _updater self with
  | None => raise (Exc PyAttributeError "_updater")
  | Some u =>
      set_self {| logger := logger self;
                  _log_folder := _log_folder self;
                  updater := updater self;
                  settings := settings self;
                  _updater := Some {| updater_token := updater_token u;
                                      dispatcher := op (dispatcher u);
                                      polling := polling u |} |}
  end.

Definition __create_api_commands : M unit :=
  for_each api_commands (λ command,
    print ("Creating command: " +:+ command) ;;
    cb <- getattr command ;;
    let cmd_handler := CommandHandler command cb in
    with_dispatcher (add_handler cmd_handler)) ;;
  cb <- getattr "unknown" ;;
  let unknown_handler := MessageHandler Filters_command cb in
  with_dispatcher (add_handler unknown_handler) ;;
  with_dispatcher (add_error_handler (BoundMethod error_callback_name)).

(** The transport's basic validation of a token, made when the updater
    builds its bot: no white space anywhere, a colon, and before the
    first colon at least three characters, all digits.  A string stands
    for the UTF-8 bytes of the Python string; the digits are 0 to 9. *)
Definition is_ascii_space (c : ascii) : bool :=
  let n := nat_of_ascii c in
  ((9 <=? n) && (n <=? 13) || (28 <=? n) && (n <=? 32))%nat.

Definition is_ascii_digit (c : ascii) : bool :=
  let n := nat_of_ascii c in ((48 <=? n) && (n <=? 57))%nat.

(** The white space beyond ASCII, as UTF-8 bytes: U+0085, U+00A0, U+1680,
    U+2000 to U+200A, U+2028, U+2029, U+202F, U+205F and U+3000. *)
Definition unicode_spaces : list (list nat) :=
  [ [194; 133]; [194; 160]; [225; 154; 128];
    [226; 128; 128]; [226; 128; 129]; [226; 128; 130]; [226; 128; 131];
    [226; 128; 132]; [226; 128; 133]; [226; 128; 134]; [226; 128; 135];
    [226; 128; 136]; [226; 128; 137]; [226; 128; 138];
    [226; 128; 168]; [226; 128; 169]; [226; 128; 175];
    [226; 129; 159]; [227; 128; 128] ]%nat.

Fixpoint starts_with (pattern l : list nat) : bool :=
  match pattern, l with
  | [], _ => true
  | x :: pattern', y :: l' => (x =? y)%nat && starts_with pattern' l'
  | _ :: _, [] => false
  end.

Fixpoint has_unicode_space (l : list nat) : bool :=
  match l with
  | [] => false
  | _ :: rest =>
      existsb (λ pattern, starts_with pattern l) unicode_spaces
      || has_unicode_space rest
  end.

(** [any(x.isspace() for x in token)] *)
Definition has_space (token : string) : bool :=
  existsb is_ascii_space (String.list_ascii_of_string token)
  || has_unicode_space (nat_of_ascii <$> String.list_ascii_of_string token).

(** The left part of [token.partition(':')], when there is a colon. *)
Fixpoint before_colon (token : string) : option string :=
  match token with
  | EmptyString => None
  | String c rest =>
      if decide (c = ":"%char) then Some EmptyString
      else String c <$> before_colon rest
  end.

Definition validate_token (token : string) : bool :=
  negb (has_space token) &&
  match before_colon token with
  | None => false
  | Some left_part =>
      forallb is_ascii_digit (String.list_ascii_of_string left_part)
      && (3 <=? String.length left_part)%nat
  end.

(** [Updater(token=...)]: a fresh updater with an empty dispatcher, or
    [InvalidToken] for a token that fails the validation. *)
Definition new_Updater (token : string) : M Updater :=
  if validate_token token
  then ret {| updater_token := token;
              dispatcher := {| handlers := []; error_handlers := [] |};
              polling := false |}
  else raise (Exc InvalidToken "Invalid token").

Definition start_polling : M unit :=
  self <- get_self ;;
  match _updater self with
  | None => raise (Exc PyAttributeError "_updater")
  | Some u =>
      set_self {| logger := logger self;
                  _log_folder := _log_folder self;
                  updater := updater self;
                  settings := settings self;
                  _updater := Some {| updater_token := updater_token u;
                                      dispatcher := dispatcher u;
                                      polling := true |} |}
  end.

Definition run : M unit :=
  token <- settings_getitem "token" ;;
  new_updater <- new_Updater token ;;
  self <- get_self ;;
  set_self {| logger := logger self;
              _log_folder := _log_folder self;
              updater := updater self;
              settings := settings self;
              _updater := Some new_updater |} ;;
  __create_api_commands ;;
  logger_info "The bot is now waiting for orders!" ;;
  start_polling.

(** [Api(settings, use_stdout, use_file_log)]: the object [__init__]
    leaves behind, in a module called [module_name] (the log directory it
    may create is not modelled). *)
Definition Api_init (module_name : string) (settings0 : gmap string string)
    (use_stdout use_file_log : bool) : Api :=
  let log_folder := "log" in
  {| logger := {| logger_name := module_name;
                  logger_sinks :=
                    (if use_file_log
                     then [FileSink (log_folder +:+ "/" +:+ module_name +:+ ".log")]
                     else []) ++
                    (if use_stdout then [StdoutSink] else []) |};
     _log_folder := log_folder;
     updater := None;
     settings := settings0;
     _updater := None |}.

(** ** Dispatch (telegram.ext.Dispatcher) *)

(** The transport library is not part of the repository.  What follows is
    its documented behaviour: a [CommandHandler] accepts a message whose
    command token is its command, [Filters.command] accepts every
    command-shaped message, the handlers of a group are tried in the order
    in which they were added and the first one that accepts the update
    handles it; an exception of class [TelegramError] raised by the
    callback is given to the error handlers, any other is swallowed by the
    library. *)

Definition filter_accepts (f : Filter) (m : Message) : bool :=
  match f with
  | Filters_all => true
  | Filters_command => bool_decide (command_token m ≠ None)
  end.

Definition check_update (u : Update) (h : Handler) : bool :=
  match h with
  | CommandHandler command _ => bool_decide (command_token (message u) = Some command)
  | MessageHandler f _ => filter_accepts f (message u)
  end.

(** The callback that gets the update, if any. *)
Definition select_handler (d : Dispatcher) (u : Update) : option callback :=
  handler_callback <$> find (check_update u) (handlers d).

(** The same for any update: a channel post has no [update.message], so
    no command listener accepts it; a message listener applies its
    filter to the post. *)
Definition check_any_update (update : AnyUpdate) (h : Handler) : bool :=
  match update with
  | MessageUpdate u => check_update u h
  | ChannelPostUpdate post =>
      match h with
      | CommandHandler _ _ => false
      | MessageHandler f _ => filter_accepts f post
      end
  end.

Definition select_handler_any (d : Dispatcher) (update : AnyUpdate)
    : option callback :=
  handler_callback <$> find (check_any_update update) (handlers d).

(** Calling a stored bound method. *)
Definition call (cb : callback) (bot : Bot) (u : Update) : M unit :=
  match cb with
  | BoundMethod name =>
      match Api_method name with
      | Some f => f bot u
      | None => raise (Exc PyAttributeError name)
      end
  end.

Definition call_error (cb : callback) (bot : Bot) (u : option Update)
    (e : exception) : M unit :=
  match cb with
  | BoundMethod name =>
      match Api_error_method name with
      | Some f => f bot u e
      | None => raise (Exc PyAttributeError name)
      end
  end.

(** [dispatch_error]: every error handler is called; what one of them
    raises is logged by the library and goes no further. *)
Definition dispatch_error (cbs : list callback) (bot : Bot)
    (u : option Update) (e : exception) : M unit :=
  try_except
    (for_each cbs (λ cb, call_error cb bot u e))
    [ (PyException, λ _, ret tt) ].

Definition process_update (bot : Bot) (u : Update) : M unit :=
  self <- get_self ;;
  match _updater self with
  | None => ret tt
  | Some upd =>
      let d := dispatcher upd in
      match select_handler d u with
      | None => ret tt
      | Some cb =>
          try_except (call cb bot u)
            [ (TelegramError, λ te, dispatch_error (error_handlers d) bot (Some u) te);
              (PyException, λ _, ret tt) ]
      end
  end.

(** ** Registration orders *)

(** The three kinds of listener [__create_api_commands] installs. *)
Inductive registration :=
  | RegCommand (command : string)
  | RegFallback
  | RegError.

Global Instance registration_eq_dec : EqDecision registration.
Proof. solve_decision. Defined.

Definition fallback_handler : Handler :=
  MessageHandler Filters_command (BoundMethod "unknown").

Definition command_handler (command : string) : Handler :=
  CommandHandler command (BoundMethod command).

Definition register (r : registration) (d : Dispatcher) : Dispatcher :=
  match r with
  | RegCommand command => add_handler (command_handler command) d
  | RegFallback => add_handler fallback_handler d
  | RegError => add_error_handler (BoundMethod error_callback_name) d
  end.

Definition empty_dispatcher : Dispatcher :=
  {| handlers := []; error_handlers := [] |}.

(** The dispatcher after the registrations [rs], made in that order. *)
Definition registered (rs : list registration) : Dispatcher :=
  foldl (λ d r, register r d) empty_dispatcher rs.

(** The order [__create_api_commands] uses. *)
Definition code_order : list registration :=
  (RegCommand <$> api_commands) ++ [RegFallback; RegError].

(** An inbound message of chat [c] with command token [tok]. *)
Definition inbound (c : Z) (tok : option string) : Update :=
  {| message := {| chat_id := c; command_token := tok |} |}.

(** ** Vocabulary of the properties *)

(** The commands whose handler asks the server. *)
Definition networked_commands : list string :=
  ["help"; "start"; "stop"; "info"; "test"].

(** What a handler of the shape "log, ask the server, relay" comes to, by
    cases on the configuration and on the answers of the two parties. *)
Definition relay_result (logline cmd : string) (u : Update) (w : World)
    (self : Api) : result unit :=
  match settings self !! "server_address" with
  | None => Result self [EvLog logline] (Raised (Exc PyKeyError "server_address"))
  | Some addr =>
      let url := "http://" +:+ addr +:+ "/v1/" +:+ cmd in
      match requests_get w url with
      | inr e => Result self [EvLog logline; EvGet url] (Raised e)
      | inl response =>
          let c := chat_id (message u) in
          let t := PyBytes (content response) in
          match telegram_send w c t with
          | None => Result self [EvLog logline; EvGet url; EvSend c t] (Returned tt)
          | Some e => Result self [EvLog logline; EvGet url; EvSendFailed c t] (Raised e)
          end
      end
  end.

(** The same for a handler that answers with a text of its own. *)
Definition reply_result (logline : string) (t : pytext) (u : Update)
    (w : World) (self : Api) : result unit :=
  let c := chat_id (message u) in
  match telegram_send w c t with
  | None => Result self [EvLog logline; EvSend c t] (Returned tt)
  | Some e => Result self [EvLog logline; EvSendFailed c t] (Raised e)
  end.

(** The six kinds of fault and the line the error callback logs for each. *)
Inductive fault_kind :=
  | KUnauthorized | KMalformedRequest | KTimeout
  | KNetworkError | KChatRelocated | KOtherTransportError.

Definition fault_log (k : fault_kind) : string :=
  match k with
  | KUnauthorized => "Error Unauthorized found!"
  | KMalformedRequest => "Error BadRequest found!"
  | KTimeout => "Error TimedOut found!"
  | KNetworkError => "Error NetworkError found!"
  | KChatRelocated => "Error ChatMigrated found!"
  | KOtherTransportError => "Error TelegramError found!"
  end.

(** The kind of a transport fault, read off its most specific class; a
    class outside [telegram.error] has none. *)
Definition fault_kind_of (c : pyclass) : option fault_kind :=
  match c with
  | Unauthorized => Some KUnauthorized
  | BadRequest => Some KMalformedRequest
  | TimedOut => Some KTimeout
  | NetworkError => Some KNetworkError
  | ChatMigrated => Some KChatRelocated
  | TelegramError | InvalidToken | RetryAfter => Some KOtherTransportError
  | _ => None
  end.

(** One handler called for two inbound events, one after the other, each
    in the world of its own moment; like the dispatcher, the second call
    is made whatever the first one did. *)
Definition invoke_twice (h : Bot → Update → M unit) (bot : Bot)
    (u1 u2 : Update) (w1 w2 : World) (self : Api) : result unit * result unit :=
  let r1 := h bot u1 w1 self in
  let r2 := h bot u2 w2 (res_self r1) in
  (r1, r2).

(** What a registration adds to the message listeners and to the fault
    listeners. *)
Definition reg_handler (r : registration) : option Handler :=
  match r with
  | RegCommand command => Some (command_handler command)
  | RegFallback => Some fallback_handler
  | RegError => None
  end.

Definition reg_error (r : registration) : option callback :=
  match r with
  | RegError => Some (BoundMethod error_callback_name)
  | _ => None
  end.

(** The routing by name: one of the six commands goes to the method of
    that name, any other command token to [unknown], and a message without
    a command token to nobody. *)
Definition route (tok : option string) : option callback :=
  match tok with
  | Some name =>
      if decide (name ∈ api_commands) then Some (BoundMethod name)
      else Some (BoundMethod "unknown")
  | None => None
  end.

(** The object [run] leaves behind when the token is [tok]. *)
Definition running (self : Api) (tok : string) : Api :=
  {| logger := logger self;
     _log_folder := _log_folder self;
     updater := updater self;
     settings := settings self;
     _updater := Some {| updater_token := tok;
                         dispatcher := registered code_order;
                         polling := true |} |}.

(** The fallback listener is the last message listener installed. *)
Definition fallback_last (rs : list registration) : bool :=
  bool_decide (last (handlers (registered rs)) = Some fallback_handler).

(** A handler call that sent exactly one reply, to the chat of the event,
    and returned, or that raised and sent none. *)
Definition replied_once_or_raised (u : Update) (r : result unit) : Prop :=
  (res_outcome r = Returned tt ∧
   ∃ t, replies (res_trace r) = [(chat_id (message u), t)]) ∨
  (∃ e, res_outcome r = Raised e ∧ replies (res_trace r) = []).

(** ** Sample data: the scenario of a server at localhost:8080 *)

Definition sample_settings : gmap string string :=
  <["token" := "110201543:AAHdqTcvCH1vGWJxfSeofSAs0K5PALDsaw"]>
  (<["server_address" := "localhost:8080"]>
  (<["version" := "1.0"]> ∅)).

Definition sample_api : Api := Api_init "bot.api" sample_settings true false.

Definition sample_bot : Bot := {| bot_username := "motion_bot" |}.

(** The bytes of [Hello!]. *)
Definition hello_bytes : list byte := [x48; x65; x6c; x6c; x6f; x21].

(** A server that answers every request with status 200 and [Hello!], and
    a transport that delivers every text message. *)
Definition sample_world : World :=
  {| requests_get := λ _, inl {| status_code := 200; content := hello_bytes |};
     telegram_send := python3_send (λ _ _, None) |}.

(** A server that cannot be reached. *)
Definition offline_world : World :=
  {| requests_get := λ _, inr (Exc RequestsConnectionError "connection refused");
     telegram_send := python3_send (λ _ _, None) |}.

(** A chat that has blocked the bot: the server answers, the transport
    refuses every text message. *)
Definition blocked_world : World :=
  {| requests_get := λ _, inl {| status_code := 200; content := hello_bytes |};
     telegram_send :=
       python3_send (λ _ _, Some (Exc Unauthorized "bot was blocked by the user")) |}.

(** The sample object once [run] has returned. *)
Definition started_api : Api := res_self (run sample_world sample_api).

(** A post "/foo" in a channel the bot is a member of. *)
Definition sample_channel_post : Message :=
  {| chat_id := -1001234567890; command_token := Some "foo" |}.

(** A registration order that installs the fallback listener first. *)
Definition fallback_first_order : list registration :=
  RegFallback :: (RegCommand <$> api_commands) ++ [RegError].

(** An order that differs from the code's but keeps the fallback last. *)
Definition shuffled_order : list registration :=
  [RegError; RegCommand "test"; RegCommand "version"; RegCommand "info";
   RegCommand "stop"; RegCommand "start"; RegCommand "help"; RegFallback].

(** ** class Api: the context-manager methods *)

(** What a method hands back to the Python code that called it: [None],
    or the object itself. *)
Inductive pyref := PyNone | PySelf.

(** Python's truth value of such a result. *)
Definition truthy (v : pyref) : bool :=
  match v with PyNone => false | PySelf => true end.

Definition __enter__ : M pyref :=
  logger_info "Motion api bot instance enter!" ;;
  ret PyNone.

Definition __del__ : M pyref :=
  logger_info "Motion api bot instance deleted!" ;;
  ret PyNone.

(** [exc] is the exception the body of the [with] left with, if any (the
    three arguments Python passes describe it). *)
Definition __exit__ (exc : option exception) : M pyref :=
  logger_info "Motion api bot instance exit!" ;;
  ret PyNone.

(** [with api as target: body]: the body gets what [__enter__] returned;
    [__exit__] is called when the body has finished or raised, and an
    exception of the body is raised again unless [__exit__] returned a
    true value. *)
Definition with_as (body : pyref → M unit) : M unit := λ w self,
  match __enter__ w self with
  | Result self1 tr1 (Raised e) => Result self1 tr1 (Raised e)
  | Result self1 tr1 (Returned target) =>
      match body target w self1 with
      | Result self2 tr2 (Returned _) =>
          match __exit__ None w self2 with
          | Result self3 tr3 (Returned _) =>
              Result self3 (tr1 ++ tr2 ++ tr3) (Returned tt)
          | Result self3 tr3 (Raised e') =>
              Result self3 (tr1 ++ tr2 ++ tr3) (Raised e')
          end
      | Result self2 tr2 (Raised e) =>
          match __exit__ (Some e) w self2 with
          | Result self3 tr3 (Returned suppress) =>
              Result self3 (tr1 ++ tr2 ++ tr3)
                (if truthy suppress then Returned tt else Raised e)
          | Result self3 tr3 (Raised e') =>
              Result self3 (tr1 ++ tr2 ++ tr3) (Raised e')
          end
      end
  end.

(** [target.method()]: [None] has no methods. *)
Definition call_on (target : pyref) (method_name : string) (method : M unit)
    : M unit :=
  match target with
  | PySelf => method
  | PyNone => raise (Exc PyAttributeError method_name)
  end.

(** ** The process around the object: files and the logging registry *)

(** What a path names, in a working directory the process may write to
    and that holds directories and regular files only. *)
Inductive fs_node := Directory | RegularFile.

(** The ways the file system refuses a call here. *)
Inductive os_error :=
  | FileExistsError | FileNotFoundError | NotADirectoryError | IsADirectoryError.

(** A [logging.Handler]: where it writes, its level, its formatter
    (format and date format; [None] stands for the library's default, the
    bare message) and what its filters let through. *)
Record LogHandler := {
  handler_sink : log_sink;
  handler_level : Z;
  handler_formatter : option (string * string);
  handler_filter : string → bool
}.

Record LoggerObject := {
  logger_level : Z;
  logger_handlers : list LogHandler
}.

(** The paths that exist, relative to the working directory; the loggers
    [logging.getLogger] has handed out, by name, the root logger under
    the empty name (a root logger that is not listed is as the library
    makes it: level WARNING, no handler); the loggers whose [propagate]
    has been switched off; and the level of [logging.disable]. *)
Record Process := {
  proc_files : gmap string fs_node;
  proc_loggers : gmap string LoggerObject;
  proc_no_propagate : gset string;
  proc_disable : Z
}.

Definition NOTSET : Z := 0.
Definition DEBUG : Z := 10.
Definition INFO : Z := 20.
Definition WARNING : Z := 30.

Definition P (A : Type) : Type := Process → Process * (A + os_error).

Definition pret {A} (a : A) : P A := λ p, (p, inl a).
Definition praise {A} (e : os_error) : P A := λ p, (p, inr e).
Definition pbind {A B} (m : P A) (k : A → P B) : P B := λ p,
  match m p with
  | (p1, inl a) => k a p1
  | (p1, inr e) => (p1, inr e)
  end.

Notation "x <~ m ;; k" := (pbind m (λ x, k))
  (at level 100, m at next level, right associativity, only parsing).
Notation "m ~;; k" := (pbind m (λ _, k))
  (at level 100, right associativity, only parsing).

(** The level of a logger nobody has set: none, but WARNING for the
    root logger. *)
Definition default_level (name : string) : Z :=
  if decide (name = "") then WARNING else NOTSET.

(** [logging.getLogger(name)]: the logger of that name, made on first use
    with no level of its own, no handler and [propagate] on. *)
Definition logging_getLogger (name : string) : P unit := λ p,
  match proc_loggers p !! name with
  | Some _ => (p, inl tt)
  | None =>
      ({| proc_files := proc_files p;
          proc_loggers := <[name := {| logger_level := default_level name;
                                       logger_handlers := [] |}]> (proc_loggers p);
          proc_no_propagate := proc_no_propagate p ∖ {[name]};
          proc_disable := proc_disable p |},
       inl tt)
  end.

(** [logger.setLevel(level)] on the logger called [name]. *)
Definition Logger_setLevel (name : string) (level : Z) : P unit := λ p,
  ({| proc_files := proc_files p;
      proc_loggers :=
        alter (λ lg, {| logger_level := level;
                        logger_handlers := logger_handlers lg |})
              name (proc_loggers p);
      proc_no_propagate := proc_no_propagate p;
      proc_disable := proc_disable p |},
   inl tt).

(** [logger.addHandler(h)]: a handler object just made is never in the
    list yet, so it is appended. *)
Definition Logger_addHandler (name : string) (h : LogHandler) : P unit := λ p,
  ({| proc_files := proc_files p;
      proc_loggers :=
        alter (λ lg, {| logger_level := logger_level lg;
                        logger_handlers := logger_handlers lg ++ [h] |})
              name (proc_loggers p);
      proc_no_propagate := proc_no_propagate p;
      proc_disable := proc_disable p |},
   inl tt).

(** [os.path.exists(path)] *)
Definition os_path_exists (path : string) : P bool := λ p,
  (p, inl (bool_decide (is_Some (proc_files p !! path)))).

(** [os.makedirs(path)], for a path of one component. *)
Definition os_makedirs (path : string) : P unit := λ p,
  match proc_files p !! path with
  | Some _ => (p, inr FileExistsError)
  | None =>
      ({| proc_files := <[path := Directory]> (proc_files p);
          proc_loggers := proc_loggers p;
          proc_no_propagate := proc_no_propagate p;
          proc_disable := proc_disable p |},
       inl tt)
  end.

(** The part of a path before its last slash, if it has one. *)
Fixpoint dirname_aux (path : string) : option string :=
  match path with
  | EmptyString => None
  | String c rest =>
      match dirname_aux rest with
      | Some d => Some (String c d)
      | None => if decide (c = "/"%char) then Some EmptyString else None
      end
  end.

(** What a path names: a path without a slash lies in the working
    directory, which is a directory. *)
Definition parent_node (path : string) (p : Process) : option fs_node :=
  match dirname_aux path with
  | Some d => proc_files p !! d
  | None => Some Directory
  end.

(** [logging.FileHandler(filename)] opens the file for appending at once.
    The place the file lies in is looked up first and must be a
    directory; then the file is created when it is missing, and the call
    fails when the name is a directory. *)
Definition open_for_append (filename : string) : P unit := λ p,
  match parent_node filename p with
  | Some Directory =>
      match proc_files p !! filename with
      | Some Directory => (p, inr IsADirectoryError)
      | Some RegularFile => (p, inl tt)
      | None =>
          ({| proc_files := <[filename := RegularFile]> (proc_files p);
              proc_loggers := proc_loggers p;
              proc_no_propagate := proc_no_propagate p;
              proc_disable := proc_disable p |},
           inl tt)
      end
  | Some RegularFile => (p, inr NotADirectoryError)
  | None => (p, inr FileNotFoundError)
  end.

Definition log_formatter : string * string :=
  ("[%(asctime)s]-[%(levelname)s]-[%(module)s]: %(message)s", "%H:%M:%S").

(** [self.__create_log(use_stdout, use_file_log)] in the module called
    [module_name], with [self._log_folder] equal to [log_folder]. *)
Definition __create_log (module_name log_folder : string)
    (use_stdout use_file_log : bool) : P unit :=
  let debug_level := DEBUG in
  logging_getLogger module_name ~;;
  Logger_setLevel module_name debug_level ~;;
  let formatter := log_formatter in
  (if use_file_log then
     folder_exists <~ os_path_exists log_folder ;;
     (if negb folder_exists then os_makedirs log_folder else pret tt) ~;;
     let log_filename := log_folder +:+ "/" +:+ module_name +:+ ".log" in
     open_for_append log_filename ~;;
     let handler := {| handler_sink := FileSink log_filename;
                       handler_level := debug_level;
                       handler_formatter := Some formatter;
                       handler_filter := λ _, true |} in
     Logger_addHandler module_name handler
   else pret tt) ~;;
  (if use_stdout then
     let handler_std := {| handler_sink := StdoutSink;
                           handler_level := debug_level;
                           handler_formatter := None;
                           handler_filter := λ _, true |} in
     Logger_addHandler module_name handler_std
   else pret tt).

(** The logger an object sees through [self.logger]. *)
Definition logger_view (name : string) (p : Process) : Logger :=
  {| logger_name := name;
     logger_sinks :=
       match proc_loggers p !! name with
       | Some lg => handler_sink <$> logger_handlers lg
       | None => []
       end |}.

(** [Api(settings, use_stdout, use_file_log)] in a process: [__init__]
    keeps the settings and creates the log. *)
Definition __init__ (module_name : string) (settings0 : gmap string string)
    (use_stdout use_file_log : bool) : P Api :=
  let log_folder := "log" in
  __create_log module_name log_folder use_stdout use_file_log ~;;
  λ p, (p, inl {| logger := logger_view module_name p;
                  _log_folder := log_folder;
                  updater := None;
                  settings := settings0;
                  _updater := None |}).

(** The log file of a module, in the folder the class uses. *)
Definition log_file_of (module_name : string) : string :=
  "log" +:+ "/" +:+ module_name +:+ ".log".

(** The handlers one construction adds to the logger. *)
Definition handlers_of_construction (module_name : string)
    (use_stdout use_file_log : bool) : list LogHandler :=
  (if use_file_log
   then [{| handler_sink := FileSink (log_file_of module_name);
            handler_level := DEBUG;
            handler_formatter := Some log_formatter;
            handler_filter := λ _, true |}]
   else []) ++
  (if use_stdout
   then [{| handler_sink := StdoutSink;
            handler_level := DEBUG;
            handler_formatter := None;
            handler_filter := λ _, true |}]
   else []).

Definition handlers_before (name : string) (p : Process) : list LogHandler :=
  match proc_loggers p !! name with
  | Some lg => logger_handlers lg
  | None => []
  end.

(** The process a construction that succeeds leaves behind. *)
Definition after_construction (name : string) (use_stdout use_file_log : bool)
    (p : Process) : Process :=
  {| proc_files :=
       if use_file_log
       then <[log_file_of name := RegularFile]>
              (<["log" := Directory]> (proc_files p))
       else proc_files p;
     proc_loggers :=
       <[name := {| logger_level := DEBUG;
                    logger_handlers :=
                      handlers_before name p ++
                      handlers_of_construction name use_stdout use_file_log |}]>
         (proc_loggers p);
     proc_no_propagate :=
       match proc_loggers p !! name with
       | Some _ => proc_no_propagate p
       | None => proc_no_propagate p ∖ {[name]}
       end;
     proc_disable := proc_disable p |}.

(** The log file can be opened: the module name has no slash in it,
    [log] is not a regular file and the log file is not a directory. *)
Definition file_log_possible (name : string) (p : Process) : Prop :=
  dirname_aux name = None ∧
  proc_files p !! "log" ≠ Some RegularFile ∧
  proc_files p !! log_file_of name ≠ Some Directory.

(** ** Where a log record goes (logging.Logger) *)

(** The index of the last dot of a name. *)
Fixpoint rfind_dot (name : string) : option nat :=
  match name with
  | EmptyString => None
  | String c rest =>
      match rfind_dot rest with
      | Some i => Some (S i)
      | None => if decide (c = "."%char) then Some 0%nat else None
      end
  end.

(** The names the library tries as parent of the logger [name], nearest
    first: [name[:i]] for the last dot [i] of the name, as long as
    [i > 0], and then for the last dot of [name[0:i-1]], and so on. *)
Fixpoint parent_candidates_from (fuel : nat) (name : string) (stop : nat)
    : list string :=
  match fuel with
  | O => []
  | S fuel' =>
      match rfind_dot (String.substring 0 stop name) with
      | Some (S i) =>
          String.substring 0 (S i) name :: parent_candidates_from fuel' name i
      | _ => []
      end
  end.

Definition parent_candidates (name : string) : list string :=
  parent_candidates_from (String.length name) name (String.length name).

(** The loggers above [name], nearest first: the parent of a logger is
    the first candidate that is a logger of the process, and the root
    logger (the empty name) when none is; the root logger has none. *)
Fixpoint ancestors_from (fuel : nat) (p : Process) (name : string)
    : list string :=
  match fuel with
  | O => []
  | S fuel' =>
      if decide (name = "") then []
      else
        match find (λ c, bool_decide (is_Some (proc_loggers p !! c)))
                   (parent_candidates name) with
        | Some parent => parent :: ancestors_from fuel' p parent
        | None => [""]
        end
  end.

Definition ancestors (p : Process) (name : string) : list string :=
  ancestors_from (S (String.length name)) p name.

Definition level_at (p : Process) (name : string) : Z :=
  match proc_loggers p !! name with
  | Some lg => logger_level lg
  | None => default_level name
  end.

(** [logger.getEffectiveLevel()]: the first level that is set, from the
    logger upwards. *)
Fixpoint first_level (p : Process) (chain : list string) : Z :=
  match chain with
  | [] => NOTSET
  | name :: rest =>
      if decide (level_at p name = NOTSET) then first_level p rest
      else level_at p name
  end.

Definition effective_level (p : Process) (name : string) : Z :=
  first_level p (name :: ancestors p name).

(** What handlers write for an INFO record with message [msg]: each one
    whose level and filters let it through writes the formatted record,
    or the bare message when it has no formatter.  [render] is the
    library's formatting of a record (time, level and module filled
    in). *)
Definition handler_lines (render : string * string → string → string)
    (msg : string) (hs : list LogHandler) : list (log_sink * string) :=
  omap (λ h,
          if bool_decide (handler_level h ≤ INFO)%Z && handler_filter h msg then
            Some (handler_sink h,
                  match handler_formatter h with
                  | Some f => render f msg
                  | None => msg
                  end)
          else None)
       hs.

(** [Logger.callHandlers]: the handlers of the logger, then those of
    its parent, and so on upwards, until a logger does not propagate. *)
Fixpoint call_handlers (render : string * string → string → string)
    (p : Process) (msg : string) (chain : list string)
    : list (log_sink * string) :=
  match chain with
  | [] => []
  | name :: rest =>
      handler_lines render msg (handlers_before name p) ++
      (if decide (name ∈ proc_no_propagate p) then []
       else call_handlers render p msg rest)
  end.

(** What [logger.info(msg)] writes, and where, for the logger [name] (one
    that has no filter of its own and is not disabled, as a logger that
    [logging.getLogger] has made): nothing when INFO is disabled or below
    the effective level of the logger, and else what the handlers of the
    logger and of the loggers above it write. *)
Definition written (render : string * string → string → string)
    (p : Process) (name msg : string) : list (log_sink * string) :=
  match proc_loggers p !! name with
  | None => []
  | Some _ =>
      if bool_decide (proc_disable p < INFO ∧ effective_level p name ≤ INFO)%Z
      then call_handlers render p msg (name :: ancestors p name)
      else []
  end.

(** ** What the dispatch of an update comes to *)

(** The lines of the error callback for an exception a handler raised:
    the line of its kind for a transport fault, none for any other. *)
Definition fault_lines (e : exception) : list event :=
  match fault_kind_of (exc_class e) with
  | Some k => [EvLog (fault_log k)]
  | None => []
  end.

(** ** More sample data *)

(** A process that has logged nothing yet, in an empty directory. *)
Definition fresh_process : Process :=
  {| proc_files := ∅; proc_loggers := ∅;
     proc_no_propagate := ∅; proc_disable := NOTSET |}.

(** A working directory in which [log] is a regular file. *)
Definition log_is_a_file : Process :=
  {| proc_files := {[ "log" := RegularFile ]}; proc_loggers := ∅;
     proc_no_propagate := ∅; proc_disable := NOTSET |}.

(** A process whose root logger has been given a console handler
    without a formatter: [logging.getLogger().addHandler(logging.StreamHandler())]. *)
Definition configured_process : Process :=
  {| proc_files := ∅;
     proc_loggers :=
       {[ "" := {| logger_level := WARNING;
                   logger_handlers :=
                     [{| handler_sink := StdoutSink;
                         handler_level := NOTSET;
                         handler_formatter := None;
                         handler_filter := λ _, true |}] |} ]};
     proc_no_propagate := ∅; proc_disable := NOTSET |}.

(** A stand-in for the library's formatting of a record. *)
Definition sample_render (f : string * string) (msg : string) : string :=
  "[12:00:00]-[INFO]-[api]: " +:+ msg.

(** An object without any setting. *)
Definition bare_api : Api := Api_init "bot.api" ∅ true false.

(** A transport that is down while the server answers. *)
Definition unreachable_chat_world : World :=
  {| requests_get := λ _, inl {| status_code := 500; content := [] |};
     telegram_send := python3_send (λ _ _, Some (Exc TimedOut "Timed out")) |}.

(** * Properties *)

(** ** Traces *)

Lemma gets_app tr1 tr2 : gets (tr1 ++ tr2) = gets tr1 ++ gets tr2.
Proof. apply omap_app. Qed.

Lemma replies_app tr1 tr2 : replies (tr1 ++ tr2) = replies tr1 ++ replies tr2.
Proof. apply omap_app. Qed.

Lemma send_calls_app tr1 tr2 :
  send_calls (tr1 ++ tr2) = send_calls tr1 ++ send_calls tr2.
Proof. apply omap_app. Qed.

(** ** The handlers, case by case *)

Lemma Api_method_inv name h :
  Api_method name = Some h →
  (name = "help" ∧ h = help) ∨ (name = "start" ∧ h = start) ∨
  (name = "stop" ∧ h = stop) ∨ (name = "info" ∧ h = info) ∨
  (name = "version" ∧ h = version) ∨ (name = "test" ∧ h = test) ∨
  (name = "unknown" ∧ h = unknown).
Proof.
  unfold Api_method. repeat case_decide; naive_solver.
Qed.

Ltac relay_cases :=
  intros; unfold relay_result, get_request_to_server, settings_getitem,
    requests_dot_get, send_message, logger_info, emit, ask_world, get_self, bind;
  cbn;
  repeat match goal with
         | |- context [settings ?s !! ?k] => destruct (settings s !! k); cbn
         | |- context [requests_get ?w ?a] => destruct (requests_get w a); cbn
         | |- context [telegram_send ?w ?c ?t] => destruct (telegram_send w c t); cbn
         end;
  reflexivity.

Lemma help_relay bot u w self :
  help bot u w self = relay_result "Received help command" "help" u w self.
Proof. unfold help. relay_cases. Qed.

Lemma start_relay bot u w self :
  start bot u w self = relay_result "Received start command" "start" u w self.
Proof. unfold start. relay_cases. Qed.

Lemma stop_relay bot u w self :
  stop bot u w self = relay_result "Received stop command" "stop" u w self.
Proof. unfold stop. relay_cases. Qed.

Lemma info_relay bot u w self :
  info bot u w self = relay_result "Received info command" "info" u w self.
Proof. unfold info. relay_cases. Qed.

Lemma test_relay bot u w self :
  test bot u w self = relay_result "Received test command" "test" u w self.
Proof. unfold test. relay_cases. Qed.

Lemma version_cases bot u w self :
  version bot u w self =
  match settings self !! "version" with
  | Some v => reply_result "Received version command" (PyStr v) u w self
  | None => Result self [EvLog "Received version command"]
              (Raised (Exc PyKeyError "version"))
  end.
Proof. unfold version, reply_result. relay_cases. Qed.

Lemma unknown_cases bot u w self :
  unknown bot u w self =
  reply_result "Received unknown command" (PyStr "Sorry, unknown command") u w self.
Proof. unfold unknown, reply_result. relay_cases. Qed.

(** Every networked command resolves to a handler of the relay shape. *)
Lemma networked_relay cmd h bot u w self :
  cmd ∈ networked_commands → Api_method cmd = Some h →
  h bot u w self = relay_result ("Received " +:+ cmd +:+ " command") cmd u w self.
Proof.
  intros Hin Hm. apply Api_method_inv in Hm.
  unfold networked_commands in Hin. set_unfold.
  destruct_or!; destruct_and?; simplify_eq;
    auto using help_relay, start_relay, stop_relay, info_relay, test_relay.
Qed.

(** ** The scenarios of a server at localhost:8080 *)

(** The server answers [Hello!]; the handler passes the bytes on, and the
    transport of a Python 3 process refuses them. *)
Example scenario_help :
  let r := help sample_bot (inbound 42 (Some "help")) sample_world sample_api in
  gets (res_trace r) = ["http://localhost:8080/v1/help"] ∧
  send_calls (res_trace r) = [(42%Z, PyBytes hello_bytes)] ∧
  replies (res_trace r) = [] ∧
  res_outcome r
  = Raised (Exc PyTypeError "Object of type bytes is not JSON serializable").
Proof. vm_compute. done. Qed.

Example scenario_version :
  let r := version sample_bot (inbound 42 (Some "version")) sample_world sample_api in
  gets (res_trace r) = [] ∧ replies (res_trace r) = [(42%Z, PyStr "1.0")].
Proof. vm_compute. done. Qed.

Example scenario_foo :
  process_update sample_bot (inbound 42 (Some "foo")) sample_world started_api
  = Result started_api
      [EvLog "Received unknown command";
       EvSend 42 (PyStr "Sorry, unknown command")]
      (Returned tt).
Proof. vm_compute. done. Qed.

(** The server is down: the handler raises, the library swallows an
    exception that is not a transport fault, and the chat hears nothing. *)
Example scenario_server_down :
  process_update sample_bot (inbound 42 (Some "start")) offline_world started_api
  = Result started_api
      [EvLog "Received start command"; EvGet "http://localhost:8080/v1/start"]
      (Returned tt).
Proof. vm_compute. done. Qed.

(** The chat has blocked the bot: the fault of [send_message] reaches the
    error callback, which logs its kind. *)
Example scenario_blocked :
  process_update sample_bot (inbound 42 (Some "version")) blocked_world started_api
  = Result started_api
      [EvLog "Received version command";
       EvSendFailed 42 (PyStr "1.0");
       EvLog "Error Unauthorized found!"]
      (Returned tt).
Proof. vm_compute. done. Qed.

(** Before [run] the object has no updater to register with. *)
Example create_api_commands_before_run :
  res_outcome (__create_api_commands sample_world sample_api)
  = Raised (Exc PyAttributeError "_updater").
Proof. vm_compute. done. Qed.

(** ** Networked handlers *)

(** C1, where the code departs from it: for every command [cmd] among
    help, start, stop, info and test, the handler named [cmd] issues
    exactly one GET, to ['http://' + settings['server_address'] + '/v1/'
    + cmd], and, whatever response that GET returns, makes exactly one
    [send_message] call, to the chat of the inbound event and with the
    content of the response as text.  In a Python 3 process that text is
    a [bytes] object: the call raises [TypeError], no reply reaches the
    chat and the exception leaves the handler. *)
Theorem networked_handler_fails_to_relay_bytes cmd h bot u w self addr response :
  cmd ∈ networked_commands →
  Api_method cmd = Some h →
  settings self !! "server_address" = Some addr →
  python3_bot w →
  let url := "http://" +:+ addr +:+ "/v1/" +:+ cmd in
  requests_get w url = inl response →
  let r := h bot u w self in
  gets (res_trace r) = [url] ∧
  send_calls (res_trace r) = [(chat_id (message u), PyBytes (content response))] ∧
  replies (res_trace r) = [] ∧
  ∃ args, res_outcome r = Raised (Exc PyTypeError args).
Proof.
  intros Hin Hm Haddr Hpy url Hget r. subst r.
  rewrite (networked_relay _ _ _ _ _ _ Hin Hm).
  unfold relay_result. rewrite Haddr. fold url. rewrite Hget. cbn zeta.
  destruct (Hpy (chat_id (message u)) (content response)) as [args ->].
  split_and!; try done. by exists args.
Qed.

Lemma networked_handler_fails_to_relay_bytes_witness :
  let r := help sample_bot (inbound 42 (Some "help")) sample_world sample_api in
  gets (res_trace r) = ["http://localhost:8080/v1/help"] ∧
  send_calls (res_trace r) = [(42%Z, PyBytes hello_bytes)] ∧
  replies (res_trace r) = [] ∧
  ∃ args, res_outcome r = Raised (Exc PyTypeError args).
Proof.
  refine (networked_handler_fails_to_relay_bytes "help" help sample_bot
            (inbound 42 (Some "help")) sample_world sample_api "localhost:8080"
            {| status_code := 200; content := hello_bytes |} _ _ _ _ _).
  - vm_compute. constructor.
  - reflexivity.
  - vm_compute. reflexivity.
  - intros c b. eexists. reflexivity.
  - reflexivity.
Defined.

(** C9: the text a networked handler sends is the content of the response
    as bytes, whatever bytes and however many they are and whatever the
    status: the very list the server returned, not decoded, cut or
    escaped. *)
Theorem networked_reply_is_raw_content cmd h bot u w self addr status body :
  cmd ∈ networked_commands →
  Api_method cmd = Some h →
  settings self !! "server_address" = Some addr →
  requests_get w ("http://" +:+ addr +:+ "/v1/" +:+ cmd)
    = inl {| status_code := status; content := body |} →
  let r := h bot u w self in
  send_calls (res_trace r) = [(chat_id (message u), PyBytes body)] ∧
  (∀ c t, (c, t) ∈ replies (res_trace r) → t = PyBytes body).
Proof.
  intros Hin Hm Haddr Hget r. subst r.
  rewrite (networked_relay _ _ _ _ _ _ Hin Hm).
  unfold relay_result. rewrite Haddr. cbn zeta. rewrite Hget. cbn.
  destruct (telegram_send w _ _); cbn; split; try done.
  - intros c t Hel. by apply elem_of_nil in Hel.
  - intros c t Hel. apply list_elem_of_singleton in Hel. by simplify_eq.
Qed.

Lemma networked_reply_is_raw_content_witness :
  send_calls (res_trace (info sample_bot (inbound 7 (Some "info"))
                           sample_world sample_api))
  = [(7%Z, PyBytes hello_bytes)].
Proof.
  refine (proj1 (networked_reply_is_raw_content "info" info sample_bot
                   (inbound 7 (Some "info")) sample_world sample_api
                   "localhost:8080" 200 hello_bytes _ _ _ _)).
  - vm_compute. repeat constructor.
  - reflexivity.
  - vm_compute. reflexivity.
  - reflexivity.
Defined.

(** ** The handlers that do not ask the server *)

(** C3: with [settings['version']] equal to [X], the version handler
    issues no GET and makes exactly one [send_message] call, with text
    [X], to the chat of the inbound event; once delivered, that is the one
    reply. *)
Theorem version_replies_configured_version bot u w self X :
  settings self !! "version" = Some X →
  let r := version bot u w self in
  let reply := (chat_id (message u), PyStr X) in
  gets (res_trace r) = [] ∧
  send_calls (res_trace r) = [reply] ∧
  (telegram_send w reply.1 reply.2 = None →
   replies (res_trace r) = [reply] ∧ res_outcome r = Returned tt).
Proof.
  intros HX r reply. subst r reply.
  rewrite version_cases, HX. unfold reply_result. cbn.
  destruct (telegram_send w _ _); cbn; repeat split; try done.
Qed.

Lemma version_replies_configured_version_witness :
  let r := version sample_bot (inbound 42 (Some "version")) sample_world sample_api in
  gets (res_trace r) = [] ∧ replies (res_trace r) = [(42%Z, PyStr "1.0")].
Proof.
  destruct (version_replies_configured_version sample_bot
              (inbound 42 (Some "version")) sample_world sample_api "1.0")
    as (Hget & _ & Hsent).
  - vm_compute. reflexivity.
  - destruct Hsent as [Hsent _]; [ reflexivity | ].
    exact (conj Hget Hsent).
Defined.

(** On an update that carries a message, the unknown handler issues no
    GET and makes exactly one [send_message] call, with the text "Sorry,
    unknown command", to the chat of the message; once delivered, that is
    the one reply. *)
Lemma unknown_replies_fixed_text bot u w self :
  let r := unknown bot u w self in
  let reply := (chat_id (message u), PyStr "Sorry, unknown command") in
  gets (res_trace r) = [] ∧
  send_calls (res_trace r) = [reply] ∧
  (telegram_send w reply.1 reply.2 = None →
   replies (res_trace r) = [reply] ∧ res_outcome r = Returned tt).
Proof.
  intros r reply. subst r reply.
  rewrite unknown_cases. unfold reply_result. cbn.
  destruct (telegram_send w _ _); cbn; repeat split; try done.
Qed.

Lemma unknown_replies_fixed_text_witness :
  let r := unknown sample_bot (inbound 42 (Some "foo")) sample_world sample_api in
  gets (res_trace r) = [] ∧
  replies (res_trace r) = [(42%Z, PyStr "Sorry, unknown command")].
Proof.
  destruct (unknown_replies_fixed_text sample_bot (inbound 42 (Some "foo"))
              sample_world sample_api) as (Hget & _ & Hsent).
  destruct Hsent as [Hsent _]; [ reflexivity | ].
  exact (conj Hget Hsent).
Defined.

(** C4, where the code departs from it: the fallback listener also
    accepts a channel post that looks like a command, and such an update
    has no [update.message].  Routed to the unknown handler, it makes the
    handler log its line and raise [AttributeError] on
    [update.message.chat_id]: [send_message] is not called and nobody
    gets the apology.  On an update with a message the handler is the one
    of the lemma above. *)
Theorem unknown_fails_on_channel_post bot post w self :
  command_token post ≠ None →
  select_handler_any (registered code_order) (ChannelPostUpdate post)
  = Some (BoundMethod "unknown") ∧
  unknown_on bot (ChannelPostUpdate post) w self
  = Result self [EvLog "Received unknown command"]
      (Raised (Exc PyAttributeError "chat_id")) ∧
  (∀ u, unknown_on bot (MessageUpdate u) w self = unknown bot u w self).
Proof.
  intros Htok. split_and!.
  - unfold select_handler_any. cbn.
    destruct (command_token post); [ reflexivity | done ].
  - reflexivity.
  - intros u. rewrite unknown_cases.
    unfold reply_result, unknown_on, message_chat_id, send_message,
      logger_info, emit, ask_world, ret, bind. cbn.
    by destruct (telegram_send w (chat_id (message u))
                   (PyStr "Sorry, unknown command")).
Qed.

Lemma unknown_fails_on_channel_post_witness :
  select_handler_any (registered code_order) (ChannelPostUpdate sample_channel_post)
  = Some (BoundMethod "unknown") ∧
  send_calls (res_trace (unknown_on sample_bot (ChannelPostUpdate sample_channel_post)
                           sample_world started_api)) = [].
Proof.
  destruct (unknown_fails_on_channel_post sample_bot sample_channel_post
              sample_world started_api) as (Hsel & Hrun & _).
  - discriminate.
  - split; [ exact Hsel | ]. rewrite Hrun. reflexivity.
Defined.

(** ** One reply or an exception *)

Lemma relay_result_replied_once_or_raised logline cmd u w self :
  replied_once_or_raised u (relay_result logline cmd u w self).
Proof.
  unfold relay_result, replied_once_or_raised.
  destruct (settings self !! "server_address") as [addr | ]; cbn; [ | eauto ].
  destruct (requests_get w _) as [resp | e]; cbn; [ | eauto ].
  destruct (telegram_send w _ _); cbn; eauto.
Qed.

Lemma reply_result_replied_once_or_raised logline t u w self :
  replied_once_or_raised u (reply_result logline t u w self).
Proof.
  unfold reply_result, replied_once_or_raised.
  destruct (telegram_send w _ _); cbn; eauto.
Qed.

Lemma relay_result_failed_get logline cmd u w self url e :
  url ∈ gets (res_trace (relay_result logline cmd u w self)) →
  requests_get w url = inr e →
  res_outcome (relay_result logline cmd u w self) = Raised e ∧
  send_calls (res_trace (relay_result logline cmd u w self)) = [].
Proof.
  unfold relay_result.
  destruct (settings self !! "server_address") as [addr | ]; cbn;
    [ | by intros ?%elem_of_nil ].
  destruct (requests_get w _) as [resp | e'] eqn:Hget; cbn.
  - destruct (telegram_send w _ _); cbn;
      intros ->%list_elem_of_singleton; congruence.
  - intros ->%list_elem_of_singleton. rewrite Hget. by intros [= ->].
Qed.

Lemma reply_result_no_get logline t u w self :
  gets (res_trace (reply_result logline t u w self)) = [].
Proof. unfold reply_result. by destruct (telegram_send w _ _). Qed.

Lemma handler_replied_once_or_raised name h bot u w self :
  Api_method name = Some h → replied_once_or_raised u (h bot u w self).
Proof.
  intros Hm. apply Api_method_inv in Hm.
  destruct_or!; destruct_and?; subst;
    rewrite ?help_relay, ?start_relay, ?stop_relay, ?info_relay, ?test_relay,
      ?unknown_cases, ?version_cases;
    auto using relay_result_replied_once_or_raised,
      reply_result_replied_once_or_raised.
  destruct (settings self !! "version") as [v | ];
    [ apply reply_result_replied_once_or_raised | right; eauto ].
Qed.

Lemma handler_failed_get name h bot u w self url e :
  Api_method name = Some h →
  url ∈ gets (res_trace (h bot u w self)) →
  requests_get w url = inr e →
  res_outcome (h bot u w self) = Raised e ∧
  send_calls (res_trace (h bot u w self)) = [].
Proof.
  intros Hm. apply Api_method_inv in Hm.
  destruct_or!; destruct_and?; subst;
    rewrite ?help_relay, ?start_relay, ?stop_relay, ?info_relay, ?test_relay,
      ?unknown_cases, ?version_cases;
    try apply relay_result_failed_get.
  - destruct (settings self !! "version") as [v | ];
      rewrite ?reply_result_no_get; by intros ?%elem_of_nil.
  - rewrite reply_result_no_get. by intros ?%elem_of_nil.
Qed.

(** The two handlers that are not networked issue no GET. *)
Lemma handler_no_get name h bot u w self :
  Api_method name = Some h →
  name ∉ networked_commands →
  gets (res_trace (h bot u w self)) = [].
Proof.
  intros Hm Hnot. apply Api_method_inv in Hm.
  destruct_or!; destruct_and?; subst;
    try (exfalso; apply Hnot; unfold networked_commands; set_solver).
  - rewrite version_cases.
    destruct (settings self !! "version"); auto using reply_result_no_get.
  - rewrite unknown_cases. apply reply_result_no_get.
Qed.

(** C6: every handler either returns having sent exactly one reply, to the
    chat of the inbound event, or raises having sent none; nothing in a
    handler catches the exception.  A GET that fails raises out of the
    handler before any [send_message] call is made. *)
Theorem handler_replies_once_or_raises name h bot u w self :
  Api_method name = Some h →
  let r := h bot u w self in
  replied_once_or_raised u r ∧
  (∀ url e, url ∈ gets (res_trace r) → requests_get w url = inr e →
     res_outcome r = Raised e ∧ send_calls (res_trace r) = []).
Proof.
  intros Hm r. subst r. split.
  - by apply (handler_replied_once_or_raised name).
  - intros url e. by apply (handler_failed_get name).
Qed.

Lemma handler_replies_once_or_raises_witness :
  res_outcome (stop sample_bot (inbound 5 (Some "stop")) offline_world sample_api)
    = Raised (Exc RequestsConnectionError "connection refused") ∧
  send_calls (res_trace (stop sample_bot (inbound 5 (Some "stop"))
                            offline_world sample_api)) = [].
Proof.
  refine (proj2 (handler_replies_once_or_raises "stop" stop sample_bot
                   (inbound 5 (Some "stop")) offline_world sample_api _)
            "http://localhost:8080/v1/stop"
            (Exc RequestsConnectionError "connection refused") _ _).
  - reflexivity.
  - vm_compute. constructor.
  - reflexivity.
Defined.

(** ** Handlers leave the object alone *)

Lemma relay_result_self logline cmd u w self :
  res_self (relay_result logline cmd u w self) = self.
Proof.
  unfold relay_result.
  destruct (settings self !! "server_address"); [ | done ].
  cbn zeta. destruct (requests_get w _); [ | done ].
  by destruct (telegram_send w _ _).
Qed.

Lemma reply_result_self logline t u w self :
  res_self (reply_result logline t u w self) = self.
Proof. unfold reply_result. by destruct (telegram_send w _ _). Qed.

Lemma handler_self name h bot u w self :
  Api_method name = Some h → res_self (h bot u w self) = self.
Proof.
  intros Hm. apply Api_method_inv in Hm.
  destruct_or!; destruct_and?; subst;
    rewrite ?help_relay, ?start_relay, ?stop_relay, ?info_relay, ?test_relay,
      ?unknown_cases, ?version_cases;
    auto using relay_result_self, reply_result_self.
  destruct (settings self !! "version"); auto using reply_result_self.
Qed.

Lemma relay_result_gets logline cmd u w self addr :
  settings self !! "server_address" = Some addr →
  gets (res_trace (relay_result logline cmd u w self))
  = ["http://" +:+ addr +:+ "/v1/" +:+ cmd].
Proof.
  intros Haddr. unfold relay_result. rewrite Haddr. cbn zeta.
  destruct (requests_get w _); [ | done ].
  by destruct (telegram_send w _ _).
Qed.

Lemma relay_result_send_calls logline cmd u w self addr response :
  settings self !! "server_address" = Some addr →
  requests_get w ("http://" +:+ addr +:+ "/v1/" +:+ cmd) = inl response →
  send_calls (res_trace (relay_result logline cmd u w self))
  = [(chat_id (message u), PyBytes (content response))].
Proof.
  intros Haddr Hget. unfold relay_result. rewrite Haddr. cbn zeta.
  rewrite Hget. by destruct (telegram_send w _ _).
Qed.

(** C8, as the code has it: a handler call assigns no field of the [Api]
    object, the settings included, so the object after the call is the
    object before it, and a second call, for another event, does what it
    would have done had the first never happened; each of the two calls
    sends its own one reply or raises.  The two calls of a networked
    handler issue a GET each, and each relays the response of its own GET
    to the chat of its own event; the two calls of [version] or [unknown]
    issue no GET. *)
Theorem handler_calls_are_independent name h bot u1 u2 w1 w2 self :
  Api_method name = Some h →
  let rr := invoke_twice h bot u1 u2 w1 w2 self in
  res_self rr.1 = self ∧ res_self rr.2 = self ∧
  settings (res_self rr.1) = settings self ∧
  rr.2 = h bot u2 w2 self ∧
  replied_once_or_raised u1 rr.1 ∧ replied_once_or_raised u2 rr.2 ∧
  (name ∈ networked_commands →
   ∀ addr, settings self !! "server_address" = Some addr →
     let url := "http://" +:+ addr +:+ "/v1/" +:+ name in
     gets (res_trace rr.1 ++ res_trace rr.2) = [url; url] ∧
     ∀ resp1 resp2,
       requests_get w1 url = inl resp1 → requests_get w2 url = inl resp2 →
       send_calls (res_trace rr.1 ++ res_trace rr.2)
       = [(chat_id (message u1), PyBytes (content resp1));
          (chat_id (message u2), PyBytes (content resp2))]) ∧
  (name ∉ networked_commands →
   gets (res_trace rr.1 ++ res_trace rr.2) = []).
Proof.
  intros Hm rr. subst rr. unfold invoke_twice. cbn [fst snd].
  rewrite !(handler_self _ _ _ _ _ _ Hm).
  split_and!; try done.
  - by apply (handler_replied_once_or_raised name).
  - by apply (handler_replied_once_or_raised name).
  - intros Hin addr Haddr.
    rewrite gets_app, send_calls_app, !(networked_relay _ _ _ _ _ _ Hin Hm).
    rewrite !(relay_result_gets _ _ _ _ _ _ Haddr). split; [ done | ].
    intros resp1 resp2 H1 H2.
    by rewrite (relay_result_send_calls _ _ _ _ _ _ _ Haddr H1),
               (relay_result_send_calls _ _ _ _ _ _ _ Haddr H2).
  - intros Hnot. by rewrite gets_app, !(handler_no_get _ _ _ _ _ _ Hm Hnot).
Qed.

Lemma handler_calls_are_independent_witness :
  let rr := invoke_twice test sample_bot (inbound 1 (Some "test"))
              (inbound 2 (Some "test")) sample_world offline_world sample_api in
  res_self rr.2 = sample_api ∧
  gets (res_trace rr.1 ++ res_trace rr.2)
  = ["http://localhost:8080/v1/test"; "http://localhost:8080/v1/test"].
Proof.
  destruct (handler_calls_are_independent "test" test sample_bot
              (inbound 1 (Some "test")) (inbound 2 (Some "test"))
              sample_world offline_world sample_api)
    as (_ & Hself & _ & _ & _ & _ & Hnet & _); [ reflexivity | ].
  destruct (Hnet ltac:(vm_compute; repeat constructor) "localhost:8080")
    as [Hgets _]; [ vm_compute; reflexivity | ].
  exact (conj Hself Hgets).
Defined.

(** C8, as stated, fails for the handlers that are not networked: two
    calls of [version] send two replies and issue no GET at all. *)
Lemma version_twice_issues_no_get :
  let rr := invoke_twice version sample_bot (inbound 1 (Some "version"))
              (inbound 2 (Some "version")) sample_world sample_world sample_api in
  gets (res_trace rr.1 ++ res_trace rr.2) = [] ∧
  replies (res_trace rr.1 ++ res_trace rr.2)
  = [(1%Z, PyStr "1.0"); (2%Z, PyStr "1.0")].
Proof. split; reflexivity. Qed.

(** ** The error callback *)

Lemma fault_log_inj k k' : fault_log k' = fault_log k → k' = k.
Proof. destruct k, k'; cbn; intros [=]; reflexivity. Qed.

(** An error of a class outside [telegram.error] matches none of the six
    clauses: the [raise] of the callback goes on to the caller, and
    nothing is logged. *)
Lemma error_callback_reraises bot u error w self :
  isinstance error TelegramError = false →
  __error_callback bot u error w self = Result self [] (Raised error).
Proof.
  destruct error as [c args]. destruct c; cbn; intros [=]; reflexivity.
Qed.

(** C2, as the code has it: for every error that is an instance of the
    transport's [TelegramError], the callback picks exactly one of the six
    kinds, the one of the most specific class of the error, logs the line
    of that kind once and returns; it sends nothing, issues no GET and
    leaves the object as it was. *)
Theorem error_callback_classifies_transport_faults bot u error w self :
  isinstance error TelegramError = true →
  ∃ k, fault_kind_of (exc_class error) = Some k ∧
       __error_callback bot u error w self
       = Result self [EvLog (fault_log k)] (Returned tt) ∧
       ∀ k', fault_log k' = fault_log k → k' = k.
Proof.
  destruct error as [c args].
  destruct c; cbn; intros [=]; eexists;
    (split_and!; [ reflexivity | reflexivity | apply fault_log_inj ]).
Qed.

Lemma error_callback_classifies_transport_faults_witness :
  __error_callback sample_bot (Some (inbound 42 (Some "help")))
    (Exc TimedOut "Timed out") sample_world sample_api
  = Result sample_api [EvLog "Error TimedOut found!"] (Returned tt).
Proof.
  destruct (error_callback_classifies_transport_faults sample_bot
              (Some (inbound 42 (Some "help"))) (Exc TimedOut "Timed out")
              sample_world sample_api) as (k & Hk & Hrun & _).
  - reflexivity.
  - injection Hk as <-. exact Hrun.
Defined.

(** C2, as stated, fails: an error of [requests], not a transport fault,
    is classified into none of the six kinds; the callback logs nothing
    and the error escapes from it. *)
Lemma error_callback_lets_foreign_error_escape :
  let error := Exc RequestsConnectionError "connection refused" in
  let r := __error_callback sample_bot None error sample_world sample_api in
  r = Result sample_api [] (Raised error) ∧
  ¬ ∃ k, r = Result sample_api [EvLog (fault_log k)] (Returned tt).
Proof.
  split; [ reflexivity | ]. intros [k Hk]. destruct k; discriminate Hk.
Qed.

(** ** Startup *)

Lemma run_result w self tok :
  settings self !! "token" = Some tok →
  validate_token tok = true →
  run w self =
  Result (running self tok)
    (((λ c, EvPrint ("Creating command: " +:+ c)) <$> api_commands) ++
     [EvLog "The bot is now waiting for orders!"])
    (Returned tt).
Proof.
  intros Htok Hvalid.
  unfold run, bind at 1, settings_getitem, bind at 1, get_self.
  rewrite Htok. unfold ret at 1. unfold bind at 1. unfold new_Updater.
  rewrite Hvalid. reflexivity.
Qed.

(** A token the transport refuses: [Updater] raises [InvalidToken]
    before anything is printed, assigned or registered. *)
Lemma run_invalid_token w self tok :
  settings self !! "token" = Some tok →
  validate_token tok = false →
  run w self = Result self [] (Raised (Exc InvalidToken "Invalid token")).
Proof.
  intros Htok Hvalid.
  unfold run, bind at 1, settings_getitem, bind at 1, get_self.
  rewrite Htok. unfold ret at 1. unfold bind at 1. unfold new_Updater.
  by rewrite Hvalid.
Qed.

(** C7: with a token the transport takes for one, [run] installs, in the
    dispatcher of a fresh updater, one command listener for each of
    help, start, stop, info, version and test, bound to the method of
    the same name, then one fallback listener on command messages bound
    to [unknown], and one fault listener bound to the error callback,
    and nothing else; it prints one "Creating command" line for each
    command name. *)
Theorem run_registers_listeners w self tok :
  settings self !! "token" = Some tok →
  validate_token tok = true →
  let r := run w self in
  res_outcome r = Returned tt ∧
  prints (res_trace r)
  = ["Creating command: help"; "Creating command: start";
     "Creating command: stop"; "Creating command: info";
     "Creating command: version"; "Creating command: test"] ∧
  (∃ upd, _updater (res_self r) = Some upd ∧
     handlers (dispatcher upd)
     = [CommandHandler "help" (BoundMethod "help");
        CommandHandler "start" (BoundMethod "start");
        CommandHandler "stop" (BoundMethod "stop");
        CommandHandler "info" (BoundMethod "info");
        CommandHandler "version" (BoundMethod "version");
        CommandHandler "test" (BoundMethod "test");
        MessageHandler Filters_command (BoundMethod "unknown")] ∧
     error_handlers (dispatcher upd) = [BoundMethod error_callback_name] ∧
     ∀ c name, name ∈ api_commands →
       select_handler (dispatcher upd) (inbound c (Some name))
       = Some (BoundMethod name)) ∧
  Forall2 (λ name f, Api_method name = Some f)
    ["help"; "start"; "stop"; "info"; "version"; "test"; "unknown"]
    [help; start; stop; info; version; test; unknown] ∧
  Api_error_method error_callback_name = Some __error_callback.
Proof.
  intros Htok Hvalid r. subst r. rewrite (run_result _ _ _ Htok Hvalid).
  split_and!; try reflexivity.
  - eexists. split_and!; try reflexivity.
    intros c name Hin. unfold api_commands in Hin. set_unfold.
    destruct_or!; subst; reflexivity.
  - repeat constructor.
Qed.

Lemma run_registers_listeners_witness :
  prints (res_trace (run sample_world sample_api))
  = (λ c, "Creating command: " +:+ c) <$> api_commands ∧
  (dispatcher <$> _updater (res_self (run sample_world sample_api)))
  = Some (registered code_order).
Proof.
  destruct (run_registers_listeners sample_world sample_api
              "110201543:AAHdqTcvCH1vGWJxfSeofSAs0K5PALDsaw")
    as (_ & Hprints & (upd & Hupd & Hh & He & _) & _).
  - vm_compute. reflexivity.
  - vm_compute. reflexivity.
  - split; [ exact Hprints | ].
    rewrite Hupd. cbn. f_equal.
    destruct upd as [t [hs es] p]. cbn in Hh, He. by subst.
Defined.

(** ** Dispatch and the order of registration *)

Lemma foldl_register d rs :
  handlers (foldl (λ d r, register r d) d rs) = handlers d ++ omap reg_handler rs ∧
  error_handlers (foldl (λ d r, register r d) d rs)
  = error_handlers d ++ omap reg_error rs.
Proof.
  revert d. induction rs as [ | r rs IH ]; intros d; cbn [foldl omap].
  - by rewrite !app_nil_r.
  - destruct (IH (register r d)) as [-> ->].
    destruct r; cbn; by rewrite <- ?app_assoc.
Qed.

Lemma registered_handlers rs : handlers (registered rs) = omap reg_handler rs.
Proof. apply (foldl_register empty_dispatcher). Qed.

Lemma registered_error_handlers rs :
  error_handlers (registered rs) = omap reg_error rs.
Proof. apply (foldl_register empty_dispatcher). Qed.

Lemma find_app {A} (p : A → bool) l1 l2 :
  find p (l1 ++ l2) = match find p l1 with Some x => Some x | None => find p l2 end.
Proof.
  induction l1 as [ | x l1 IH ]; [ done | ]. cbn. by destruct (p x).
Qed.

Lemma find_all_false {A} (p : A → bool) l :
  (∀ x, x ∈ l → p x = false) → find p l = None.
Proof.
  induction l as [ | x l IH ]; [ done | ]. intros Hall. cbn.
  rewrite (Hall x) by left. apply IH. intros y Hy. apply Hall. by right.
Qed.

(** A command listener accepts exactly the messages whose token is its
    command. *)
Lemma check_command_handler u name :
  check_update u (command_handler name) = true ↔
  command_token (message u) = Some name.
Proof. cbn. by rewrite bool_decide_eq_true. Qed.

(** Among command listeners for the six names, in any order, the first
    one that accepts an update is the one named by its token. *)
Lemma find_among_commands cmds u :
  cmds ≡ₚ command_handler <$> api_commands →
  find (check_update u) cmds =
  match command_token (message u) with
  | Some name =>
      if decide (name ∈ api_commands) then Some (command_handler name) else None
  | None => None
  end.
Proof.
  intros Hperm.
  assert (Hshape : ∀ h, h ∈ cmds ↔ ∃ name, name ∈ api_commands ∧ h = command_handler name).
  { intros h. rewrite Hperm, list_elem_of_fmap.
    split; intros (name & ? & ?); eauto. }
  destruct (find (check_update u) cmds) as [h | ] eqn:Hfind.
  - apply find_some in Hfind as [Hin Hacc].
    apply list_elem_of_In, Hshape in Hin as (name & Hname & ->).
    apply check_command_handler in Hacc. rewrite Hacc.
    by rewrite decide_True.
  - destruct (command_token (message u)) as [name | ] eqn:Htok; [ | done ].
    case_decide as Hname; [ | done ].
    assert (check_update u (command_handler name) = false) as Hacc.
    { apply (find_none _ _ Hfind), list_elem_of_In, Hshape. eauto. }
    apply check_command_handler in Htok. congruence.
Qed.

(** With the fallback listener behind the command listeners, dispatch is
    the routing by name. *)
Lemma select_commands_then_fallback cmds es u :
  cmds ≡ₚ command_handler <$> api_commands →
  select_handler {| handlers := cmds ++ [fallback_handler];
                    error_handlers := es |} u
  = route (command_token (message u)).
Proof.
  intros Hperm. unfold select_handler, route. cbn [handlers].
  rewrite find_app, (find_among_commands _ _ Hperm).
  destruct (command_token (message u)) as [name | ] eqn:Htok.
  - case_decide; [ done | ]. cbn. by rewrite Htok.
  - cbn. by rewrite Htok.
Qed.

Lemma code_order_handlers :
  omap reg_handler code_order
  = (command_handler <$> api_commands) ++ [fallback_handler].
Proof. reflexivity. Qed.

Lemma select_code_order u :
  select_handler (registered code_order) u = route (command_token (message u)).
Proof.
  exact (select_commands_then_fallback (command_handler <$> api_commands)
           [BoundMethod error_callback_name] u (reflexivity _)).
Qed.

(** C5, as the code has it: every order of the eight registrations that
    leaves the fallback listener behind all command listeners dispatches
    like the order of the code, wherever the fault listener is
    registered: one of the six command names goes to the method of that
    name and any other command token to [unknown]; the fault listeners are
    the same too. *)
Theorem registration_order_with_fallback_last rs u :
  rs ≡ₚ code_order →
  fallback_last rs = true →
  select_handler (registered rs) u = select_handler (registered code_order) u ∧
  select_handler (registered rs) u = route (command_token (message u)) ∧
  error_handlers (registered rs) = error_handlers (registered code_order).
Proof.
  intros Hperm Hlast. unfold fallback_last in Hlast.
  apply bool_decide_eq_true in Hlast.
  rewrite registered_handlers in Hlast.
  apply last_Some in Hlast as [cmds Hcmds].
  assert (cmds ≡ₚ command_handler <$> api_commands) as Hcmdperm.
  { apply (Permutation_app_inv_r [fallback_handler]).
    rewrite <- Hcmds, <- code_order_handlers. by apply omap_Permutation. }
  assert (error_handlers (registered rs) = error_handlers (registered code_order))
    as Herr.
  { rewrite !registered_error_handlers.
    apply Permutation_singleton_r. by rewrite Hperm. }
  assert (select_handler (registered rs) u = route (command_token (message u)))
    as Hsel.
  { rewrite <- (select_commands_then_fallback cmds (error_handlers (registered rs)) u Hcmdperm).
    unfold select_handler. cbn [handlers].
    by rewrite registered_handlers, Hcmds. }
  split_and!; [ | done | done ].
  by rewrite Hsel, select_code_order.
Qed.

Lemma registration_order_with_fallback_last_witness :
  select_handler (registered shuffled_order) (inbound 42 (Some "help"))
  = Some (BoundMethod "help").
Proof.
  destruct (registration_order_with_fallback_last shuffled_order
              (inbound 42 (Some "help"))) as (_ & Hroute & _).
  - apply (bool_decide_unpack _). vm_compute. exact I.
  - vm_compute. reflexivity.
  - exact Hroute.
Defined.

(** The condition cannot be dropped: in an order that registers some
    command listener after the fallback listener, the command of the last
    listener goes to [unknown]. *)
Lemma fallback_not_last_misroutes rs :
  rs ≡ₚ code_order →
  fallback_last rs = false →
  ∃ name, name ∈ api_commands ∧
    ∀ c, select_handler (registered rs) (inbound c (Some name))
         = Some (BoundMethod "unknown").
Proof.
  intros Hperm Hlast. unfold fallback_last in Hlast.
  apply bool_decide_eq_false in Hlast. rewrite registered_handlers in Hlast.
  assert (omap reg_handler rs
          ≡ₚ (command_handler <$> api_commands) ++ [fallback_handler]) as Hhs.
  { rewrite <- code_order_handlers. by apply omap_Permutation. }
  destruct (last (omap reg_handler rs)) as [h | ] eqn:Hh.
  2: { apply last_None in Hh. rewrite Hh in Hhs.
       by apply Permutation_nil_l in Hhs. }
  apply last_Some in Hh as [front Hfront]. rewrite Hfront in Hhs.
  assert (h ∈ (command_handler <$> api_commands) ++ [fallback_handler]) as Hin.
  { rewrite <- Hhs. apply elem_of_app. right. by apply list_elem_of_singleton. }
  apply elem_of_app in Hin as [Hin | Hin];
    [ | apply list_elem_of_singleton in Hin as ->; by destruct Hlast ].
  apply list_elem_of_fmap in Hin as (name & -> & Hname).
  exists name. split; [ done | ]. intros c.
  assert (NoDup (front ++ [command_handler name])) as Hnodup.
  { rewrite Hhs. apply (bool_decide_unpack _). vm_compute. exact I. }
  apply NoDup_app in Hnodup as (_ & Hfresh & _).
  assert (∀ h', h' ∈ front → check_update (inbound c (Some name)) h' = true →
                h' = fallback_handler) as Honly.
  { intros h' Hh' Hacc.
    assert (h' ∈ (command_handler <$> api_commands) ++ [fallback_handler]) as Hin'.
    { rewrite <- Hhs. apply elem_of_app. by left. }
    apply elem_of_app in Hin' as [Hin' | Hin'];
      [ | by apply list_elem_of_singleton in Hin' ].
    apply list_elem_of_fmap in Hin' as (name' & -> & _).
    apply check_command_handler in Hacc. cbn in Hacc. injection Hacc as ->.
    exfalso. apply (Hfresh _ Hh'). by apply list_elem_of_singleton. }
  assert (fallback_handler ∈ front) as Hfb.
  { assert (fallback_handler ∈ front ++ [command_handler name]) as Hfb
      by (rewrite Hhs; apply elem_of_app; right; by apply list_elem_of_singleton).
    apply elem_of_app in Hfb as [Hfb | Hfb]; [ done | ].
    apply list_elem_of_singleton in Hfb. discriminate Hfb. }
  unfold select_handler. rewrite registered_handlers, Hfront, find_app.
  destruct (find (check_update (inbound c (Some name))) front) as [h' | ] eqn:Hfind.
  - apply find_some in Hfind as [Hh' Hacc].
    apply list_elem_of_In in Hh'. by rewrite (Honly h' Hh' Hacc).
  - apply list_elem_of_In in Hfb.
    by pose proof (find_none _ _ Hfind _ Hfb) as Habs.
Qed.

(** C5, as stated, fails: registered first, the fallback listener accepts
    every command message before a command listener is asked, and /help
    goes to [unknown]; in the order of the code it goes to [help]. *)
Lemma fallback_first_takes_every_command :
  fallback_first_order ≡ₚ code_order ∧
  select_handler (registered fallback_first_order) (inbound 42 (Some "help"))
  = Some (BoundMethod "unknown") ∧
  select_handler (registered code_order) (inbound 42 (Some "help"))
  = Some (BoundMethod "help").
Proof.
  split_and!; [ | reflexivity | reflexivity ].
  apply (Permutation_middle (RegCommand <$> api_commands) [RegError] RegFallback).
Qed.

(** ** Messages that are not commands *)

(** C10: after startup, a message without a command token is accepted by
    none of the registered listeners, so processing it calls no handler
    and produces no effect at all, in particular no reply; and [unknown]
    is only ever selected for a message that carries a command token. *)
Theorem plain_message_gets_no_reply w0 w self tok bot u :
  settings self !! "token" = Some tok →
  validate_token tok = true →
  command_token (message u) = None →
  let self' := res_self (run w0 self) in
  (∃ upd, _updater self' = Some upd ∧
     (∀ h, h ∈ handlers (dispatcher upd) → check_update u h = false) ∧
     select_handler (dispatcher upd) u = None ∧
     ∀ u', select_handler (dispatcher upd) u' = Some (BoundMethod "unknown") →
           command_token (message u') ≠ None) ∧
  process_update bot u w self' = Result self' [] (Returned tt).
Proof.
  intros Htok Hvalid Hplain self'. subst self'.
  rewrite (run_result _ _ _ Htok Hvalid).
  cbn [res_self]. split.
  - exists {| updater_token := tok; dispatcher := registered code_order;
              polling := true |}.
    split; [ reflexivity | ]. cbn [dispatcher]. split_and!.
    + intros h Hh. rewrite registered_handlers, code_order_handlers in Hh.
      apply elem_of_app in Hh as [Hh | Hh].
      * apply list_elem_of_fmap in Hh as (name & -> & _). cbn.
        rewrite Hplain. by apply bool_decide_eq_false.
      * apply list_elem_of_singleton in Hh as ->. cbn.
        rewrite Hplain. apply bool_decide_eq_false. by intros [].
    + by rewrite select_code_order, Hplain.
    + intros u'. rewrite select_code_order.
      by destruct (command_token (message u')).
  - unfold process_update, bind, get_self, running. cbn [_updater dispatcher].
    by rewrite select_code_order, Hplain.
Qed.

Lemma plain_message_gets_no_reply_witness :
  replies (res_trace (process_update sample_bot (inbound 42 None) sample_world
                        (res_self (run sample_world sample_api)))) = [].
Proof.
  destruct (plain_message_gets_no_reply sample_world sample_world sample_api
              "110201543:AAHdqTcvCH1vGWJxfSeofSAs0K5PALDsaw" sample_bot
              (inbound 42 None)) as [_ Hrun].
  - vm_compute. reflexivity.
  - vm_compute. reflexivity.
  - reflexivity.
  - cbv zeta in Hrun. rewrite Hrun. reflexivity.
Defined.

(** * Further properties of the class *)

(** ** Requests to the server *)

(** X1: [get_request_to_server] never touches the object and issues at
    most one GET.  Without [server_address] it raises [KeyError] before
    any request; with it, the request goes to the plain concatenation
    ['http://' + address + '/v1/' + cmd], whatever [cmd] is, and the
    method hands back what [requests.get] gave: a response of any status
    is returned as it is, an exception is passed on as it is. *)
Theorem get_request_to_server_cases cmd w self :
  get_request_to_server cmd w self =
  match settings self !! "server_address" with
  | None => Result self [] (Raised (Exc PyKeyError "server_address"))
  | Some addr =>
      let url := "http://" +:+ addr +:+ "/v1/" +:+ cmd in
      Result self [EvGet url]
        match requests_get w url with
        | inl response => Returned response
        | inr e => Raised e
        end
  end.
Proof.
  unfold get_request_to_server, settings_getitem, requests_dot_get, bind,
    get_self, emit, ask_world.
  destruct (settings self !! "server_address") as [addr | ]; cbn; [ | done ].
  by destruct (requests_get w _).
Qed.

(** ** The handlers in every world *)

(** Splits a goal about the handler named by [Hm] into the seven handlers
    and each of them into its outcomes. *)
Ltac handler_cases Hm :=
  apply Api_method_inv in Hm;
  destruct_or!; destruct_and?; subst;
  rewrite ?help_relay, ?start_relay, ?stop_relay, ?info_relay, ?test_relay,
    ?unknown_cases, ?version_cases;
  unfold relay_result, reply_result; cbn zeta.

Ltac oracle_cases :=
  repeat match goal with
         | |- context [settings ?s !! ?k] =>
             let H := fresh "Hset" in destruct (settings s !! k) eqn:H; cbn
         | |- context [requests_get ?w ?a] =>
             let H := fresh "Hget" in destruct (requests_get w a) eqn:H; cbn
         | |- context [telegram_send ?w ?c ?t] =>
             let H := fresh "Hsend" in destruct (telegram_send w c t) eqn:H; cbn
         end.

(** X2: the first thing every handler does is log its own line,
    "Received <name> command", and it logs nothing else, whether it then
    replies or raises. *)
Theorem handler_logs_own_line_first name h bot u w self :
  Api_method name = Some h →
  ∃ rest, res_trace (h bot u w self)
          = EvLog ("Received " +:+ name +:+ " command") :: rest ∧
          logs rest = [].
Proof.
  intros Hm. handler_cases Hm; oracle_cases; eexists; split; reflexivity.
Qed.

Lemma handler_logs_own_line_first_witness :
  ∃ rest, res_trace (stop sample_bot (inbound 3 (Some "stop"))
                       offline_world sample_api)
          = EvLog "Received stop command" :: rest ∧ logs rest = [].
Proof.
  exact (handler_logs_own_line_first "stop" stop sample_bot
           (inbound 3 (Some "stop")) offline_world sample_api eq_refl).
Defined.

(** X3: a handler whose setting is missing ([version] for the version
    handler, [server_address] for the five networked ones) raises
    [KeyError] for that key right after its log line: no GET is issued,
    nothing is sent and the object is unchanged. *)
Theorem handler_missing_setting name h bot u w self :
  Api_method name = Some h →
  name ≠ "unknown" →
  let key := if decide (name = "version") then "version" else "server_address" in
  settings self !! key = None →
  h bot u w self
  = Result self [EvLog ("Received " +:+ name +:+ " command")]
      (Raised (Exc PyKeyError key)).
Proof.
  intros Hm Hne key Hkey. subst key.
  handler_cases Hm; try done; case_decide; simplify_eq; by rewrite Hkey.
Qed.

Lemma handler_missing_setting_witness :
  help sample_bot (inbound 3 (Some "help")) sample_world bare_api
  = Result bare_api [EvLog "Received help command"]
      (Raised (Exc PyKeyError "server_address")).
Proof.
  refine (handler_missing_setting "help" help sample_bot
            (inbound 3 (Some "help")) sample_world bare_api eq_refl _ _).
  - discriminate.
  - vm_compute. reflexivity.
Defined.

(** X4: when the transport refuses the message, the exception of
    [send_message] leaves the handler as it is: nothing was delivered,
    and a networked handler has issued its one GET by then and does not
    repeat it. *)
Theorem handler_send_failure_propagates name h bot u w self c t e :
  Api_method name = Some h →
  (c, t) ∈ send_calls (res_trace (h bot u w self)) →
  telegram_send w c t = Some e →
  let r := h bot u w self in
  res_outcome r = Raised e ∧
  replies (res_trace r) = [] ∧
  length (gets (res_trace r)) = (if decide (name ∈ networked_commands) then 1 else 0).
Proof.
  intros Hm. handler_cases Hm; oracle_cases;
    try (by intros ?%elem_of_nil);
    intros [= -> ->]%list_elem_of_singleton Hfail;
    simplify_eq; split_and!; reflexivity.
Qed.

Lemma handler_send_failure_propagates_witness :
  let r := version sample_bot (inbound 9 (Some "version")) unreachable_chat_world
             sample_api in
  res_outcome r = Raised (Exc TimedOut "Timed out") ∧
  replies (res_trace r) = [] ∧ length (gets (res_trace r)) = 0.
Proof.
  refine (handler_send_failure_propagates "version" version sample_bot
            (inbound 9 (Some "version")) unreachable_chat_world sample_api
            9 (PyStr "1.0") (Exc TimedOut "Timed out") eq_refl _ _).
  - vm_compute. constructor.
  - reflexivity.
Defined.



(** X6: no handler ever issues more than one GET or calls [send_message]
    more than once, and none prints; every message goes to the chat of
    the event and every GET to the configured server, at the path of the
    handler's own command. *)
Theorem handler_effects_are_bounded name h bot u w self :
  Api_method name = Some h →
  let tr := res_trace (h bot u w self) in
  (length (gets tr) ≤ 1)%nat ∧ (length (send_calls tr) ≤ 1)%nat ∧
  prints tr = [] ∧
  (∀ c t, (c, t) ∈ send_calls tr → c = chat_id (message u)) ∧
  (∀ url, url ∈ gets tr →
     ∃ addr, settings self !! "server_address" = Some addr ∧
             url = "http://" +:+ addr +:+ "/v1/" +:+ name).
Proof.
  intros Hm. handler_cases Hm; oracle_cases;
    (split_and!; [ lia | lia | done | | ]);
    try (by intros ? ? ?%elem_of_nil);
    try (by intros ? ?%elem_of_nil);
    try (by intros ? ? [= -> ->]%list_elem_of_singleton);
    intros ? ->%list_elem_of_singleton; eauto.
Qed.

Lemma handler_effects_are_bounded_witness :
  (length (send_calls (res_trace (test sample_bot (inbound 4 (Some "test"))
                                    sample_world sample_api))) ≤ 1)%nat.
Proof.
  exact (proj1 (proj2 (handler_effects_are_bounded "test" test sample_bot
                         (inbound 4 (Some "test")) sample_world sample_api
                         eq_refl))).
Defined.

(** ** The error callback, clause by clause *)

(** X7: none of the six clauses of the error callback is dead: for each
    kind there is a class of errors that is logged as that kind.  The two
    clauses for subclasses of [NetworkError] stand before the clause for
    [NetworkError] itself, so they are not shadowed by it. *)
Theorem error_callback_reaches_every_kind k :
  ∃ c, isinstance (Exc c "") TelegramError = true ∧
       ∀ bot u args w self,
         __error_callback bot u (Exc c args) w self
         = Result self [EvLog (fault_log k)] (Returned tt).
Proof.
  exists (match k with
          | KUnauthorized => Unauthorized
          | KMalformedRequest => BadRequest
          | KTimeout => TimedOut
          | KNetworkError => NetworkError
          | KChatRelocated => ChatMigrated
          | KOtherTransportError => RetryAfter
          end).
  destruct k; split; reflexivity.
Qed.

(** ** Startup, beyond the listeners *)

(** X8: without a token in the settings [run] raises [KeyError] at once:
    nothing is printed or logged, no updater is made and the object is
    as before. *)
Theorem run_without_token w self :
  settings self !! "token" = None →
  run w self = Result self [] (Raised (Exc PyKeyError "token")).
Proof.
  intros Htok. unfold run, bind at 1, settings_getitem, bind at 1, get_self.
  by rewrite Htok.
Qed.

Lemma run_without_token_witness :
  run sample_world bare_api = Result bare_api [] (Raised (Exc PyKeyError "token")).
Proof.
  apply (run_without_token sample_world bare_api). vm_compute. reflexivity.
Defined.

(** X9: with a token the transport takes for one, [run] assigns
    [_updater] and nothing else: the logger, the log folder, the
    settings and the attribute [updater] (which stays what it was,
    [None] on a new object) are untouched.  The updater holds the
    configured token and is polling.  Startup asks the server nothing
    and sends nothing; its one log line comes last, after the listeners
    have been installed. *)
Theorem run_sets_only_the_updater w self tok :
  settings self !! "token" = Some tok →
  validate_token tok = true →
  let r := run w self in
  logger (res_self r) = logger self ∧
  _log_folder (res_self r) = _log_folder self ∧
  settings (res_self r) = settings self ∧
  updater (res_self r) = updater self ∧
  (updater_token <$> _updater (res_self r)) = Some tok ∧
  (polling <$> _updater (res_self r)) = Some true ∧
  gets (res_trace r) = [] ∧ send_calls (res_trace r) = [] ∧
  logs (res_trace r) = ["The bot is now waiting for orders!"] ∧
  last (res_trace r) = Some (EvLog "The bot is now waiting for orders!").
Proof.
  intros Htok Hvalid r. subst r. rewrite (run_result _ _ _ Htok Hvalid).
  split_and!; reflexivity.
Qed.

Lemma run_sets_only_the_updater_witness :
  updater (res_self (run sample_world sample_api)) = None ∧
  (polling <$> _updater (res_self (run sample_world sample_api))) = Some true.
Proof.
  destruct (run_sets_only_the_updater sample_world sample_api
              "110201543:AAHdqTcvCH1vGWJxfSeofSAs0K5PALDsaw")
    as (_ & _ & _ & Hupd & _ & Hpoll & _).
  - vm_compute. reflexivity.
  - vm_compute. reflexivity.
  - exact (conj Hupd Hpoll).
Defined.

(** X10: [run] makes a new updater every time, so calling it again does
    not register the listeners a second time: the object after two calls
    is the object after one, and the second call prints and logs what
    the first did. *)
Theorem run_again_changes_nothing w w' self tok :
  settings self !! "token" = Some tok →
  run w' (res_self (run w self)) = run w self.
Proof.
  intros Htok. destruct (validate_token tok) eqn:Hvalid.
  - rewrite !(run_result _ self _ Htok Hvalid). cbn [res_self].
    by rewrite (run_result w' (running self tok) tok Htok Hvalid).
  - rewrite (run_invalid_token w self _ Htok Hvalid). cbn [res_self].
    by rewrite (run_invalid_token w' self tok Htok Hvalid).
Qed.

Lemma run_again_changes_nothing_witness :
  run offline_world started_api = run sample_world sample_api.
Proof.
  apply (run_again_changes_nothing sample_world offline_world sample_api
           "110201543:AAHdqTcvCH1vGWJxfSeofSAs0K5PALDsaw").
  vm_compute. reflexivity.
Defined.

(** ** Registration on a dispatcher that is not empty *)

(** X11: [__create_api_commands] only ever adds: on an updater whose
    dispatcher already holds listeners it appends the six command
    listeners and the fallback listener behind the message listeners
    and the error callback behind the fault listeners, keeps the token
    and the polling state, and leaves the rest of the object alone. *)
Theorem create_api_commands_appends w self u :
  _updater self = Some u →
  let r := __create_api_commands w self in
  res_outcome r = Returned tt ∧
  prints (res_trace r) = (λ c, "Creating command: " +:+ c) <$> api_commands ∧
  (∃ u', _updater (res_self r) = Some u' ∧
     handlers (dispatcher u')
     = handlers (dispatcher u) ++ (command_handler <$> api_commands)
       ++ [fallback_handler] ∧
     error_handlers (dispatcher u')
     = error_handlers (dispatcher u) ++ [BoundMethod error_callback_name] ∧
     updater_token u' = updater_token u ∧ polling u' = polling u) ∧
  settings (res_self r) = settings self ∧ logger (res_self r) = logger self.
Proof.
  intros Hupd r. subst r.
  destruct self as [lg folder upd stg _upd]. cbn in Hupd. subst _upd.
  destruct u as [tok [hs es] pol].
  split_and!; try reflexivity.
  eexists. split; [ reflexivity | ]. cbn.
  split_and!; try reflexivity. by rewrite <- !app_assoc.
Qed.

Lemma create_api_commands_appends_witness :
  ∃ u', _updater (res_self (__create_api_commands sample_world started_api))
        = Some u' ∧
        length (handlers (dispatcher u')) = 14 ∧
        length (error_handlers (dispatcher u')) = 2.
Proof.
  destruct (create_api_commands_appends sample_world started_api
              {| updater_token := "110201543:AAHdqTcvCH1vGWJxfSeofSAs0K5PALDsaw";
                 dispatcher := registered code_order;
                 polling := true |})
    as (_ & _ & (u' & Hu' & Hh & He & _) & _); [ reflexivity | ].
  exists u'. rewrite Hh, He. split; [ exact Hu' | split; reflexivity ].
Defined.

(** X12: on an object [run] has not given an updater yet,
    [__create_api_commands] prints the first "Creating command" line
    and then raises [AttributeError]; nothing is registered. *)
Theorem create_api_commands_needs_updater w self :
  _updater self = None →
  __create_api_commands w self
  = Result self [EvPrint "Creating command: help"]
      (Raised (Exc PyAttributeError "_updater")).
Proof.
  intros Hupd. destruct self as [lg folder upd stg _upd].
  cbn in Hupd. subst _upd. reflexivity.
Qed.

Lemma create_api_commands_needs_updater_witness :
  __create_api_commands sample_world sample_api
  = Result sample_api [EvPrint "Creating command: help"]
      (Raised (Exc PyAttributeError "_updater")).
Proof.
  exact (create_api_commands_needs_updater sample_world sample_api eq_refl).
Defined.

(** ** From an update to its effects *)

(** After startup the dispatch of a command comes to the call of its
    handler, followed by the fault line of the error callback when the
    handler raised a transport fault. *)
Lemma process_update_started bot u w self tok name h :
  route (command_token (message u)) = Some (BoundMethod name) →
  Api_method name = Some h →
  process_update bot u w (running self tok)
  = Result (running self tok)
      (res_trace (h bot u w (running self tok)) ++
       match res_outcome (h bot u w (running self tok)) with
       | Returned _ => []
       | Raised e => fault_lines e
       end)
      (Returned tt).
Proof.
  intros Hroute Hm.
  unfold process_update, bind, get_self. cbn [_updater running dispatcher].
  rewrite select_code_order, Hroute.
  unfold try_except, call. rewrite Hm.
  pose proof (handler_self name h bot u w (running self tok) Hm) as Hself.
  destruct (h bot u w (running self tok)) as [s1 tr1 o].
  cbn in Hself. subst s1. cbn [res_trace res_outcome].
  destruct o as [[] | [c args]].
  - by rewrite app_nil_r.
  - destruct c; reflexivity.
Qed.

(** The routing by name always names a method of the object. *)
Lemma route_names_a_method tok cb :
  route tok = Some cb →
  ∃ name h, cb = BoundMethod name ∧ Api_method name = Some h.
Proof.
  unfold route. destruct tok as [name | ]; [ | done ].
  case_decide as Hin; intros [= <-].
  - unfold api_commands in Hin. set_unfold.
    destruct_or!; subst; eexists _, _; split; reflexivity.
  - eexists _, _. split; reflexivity.
Qed.

Lemma replied_once_or_raised_length u r :
  replied_once_or_raised u r → (length (replies (res_trace r)) ≤ 1)%nat.
Proof. intros [(_ & t & ->) | (e & _ & ->)]; cbn; lia. Qed.

Lemma replies_fault_lines e : replies (fault_lines e) = [].
Proof. unfold fault_lines. by destruct (fault_kind_of _). Qed.

Lemma every_exception_is_an_Exception e : isinstance e PyException = true.
Proof. destruct e as [c args]. by destruct c. Qed.

Lemma error_callback_returns bot u e w self :
  isinstance e TelegramError = true →
  __error_callback bot u e w self = Result self (fault_lines e) (Returned tt).
Proof. destruct e as [c args]. destruct c; cbn; intros [=]; reflexivity. Qed.

(** The fault listeners, whatever they are: each one that names the error
    callback logs the line of the fault, one that names nothing raises
    and ends the round; none of them sends anything or touches the
    object. *)
Lemma error_handlers_round cbs bot u e w self :
  isinstance e TelegramError = true →
  ∃ tr o, for_each cbs (λ cb, call_error cb bot u e) w self = Result self tr o ∧
          replies tr = [].
Proof.
  intros He. induction cbs as [ | [name] cbs (tr & o & IH & Hnone) ].
  - by eexists _, _.
  - cbn [for_each]. unfold bind. unfold call_error at 1.
    unfold Api_error_method. case_decide.
    + rewrite (error_callback_returns _ _ _ _ _ He). cbv beta iota.
      rewrite IH. eexists _, _. split; [ reflexivity | ].
      by rewrite replies_app, replies_fault_lines, Hnone.
    + by eexists _, _.
Qed.

Lemma dispatch_error_returns cbs bot u e w self :
  isinstance e TelegramError = true →
  ∃ tr, dispatch_error cbs bot u e w self = Result self tr (Returned tt) ∧
        replies tr = [].
Proof.
  intros He. unfold dispatch_error, try_except.
  destruct (error_handlers_round cbs bot u e w self He) as (tr & o & -> & Hnone).
  destruct o as [[] | e'].
  - by eexists.
  - cbn [select_clause]. rewrite every_exception_is_an_Exception.
    eexists. split; [ reflexivity | ]. by rewrite app_nil_r.
Qed.

(** Dispatching an update on any object, started or not, with any
    listeners: the library catches what the callback raises. *)
Lemma process_update_total bot u w self :
  res_outcome (process_update bot u w self) = Returned tt ∧
  res_self (process_update bot u w self) = self ∧
  (length (replies (res_trace (process_update bot u w self))) ≤ 1)%nat.
Proof.
  unfold process_update, bind, get_self. cbv beta iota.
  destruct (_updater self) as [upd | ]; [ | cbn; split_and!; [ done | done | lia ] ].
  destruct (select_handler (dispatcher upd) u) as [[name] | ];
    [ | cbn; split_and!; [ done | done | lia ] ].
  unfold try_except, call.
  destruct (Api_method name) as [h | ] eqn:Hm.
  - pose proof (handler_self name h bot u w self Hm) as Hself.
    pose proof (replied_once_or_raised_length u _
                  (handler_replied_once_or_raised name h bot u w self Hm)) as Hlen.
    destruct (h bot u w self) as [s1 tr1 o].
    cbn [res_self res_trace] in Hself, Hlen. subst s1.
    destruct o as [[] | e].
    + cbn [res_outcome res_self res_trace app]. by split_and!.
    + cbn [select_clause].
      destruct (isinstance e TelegramError) eqn:He.
      * destruct (dispatch_error_returns (error_handlers (dispatcher upd)) bot
                    (Some u) e w self He) as (tr & -> & Hnone).
        cbn [res_outcome res_self res_trace app]. split_and!; try done.
        rewrite replies_app, length_app, Hnone. cbn [length]. lia.
      * rewrite every_exception_is_an_Exception.
        cbn [res_outcome res_self res_trace ret app]. split_and!; try done.
        rewrite app_nil_r. lia.
  - split_and!; [ reflexivity | reflexivity | ].
    change (length (@nil (Z * pytext)) ≤ 1)%nat. cbn [length]. lia.
Qed.

(** X13: once [run] has returned, dispatching an update never raises and
    never changes the object, whatever the update and whatever the
    server and the transport do: a failure inside a handler ends in the
    dispatcher.  At most one reply is delivered for an update. *)
Theorem process_update_never_raises w0 self tok bot u w :
  settings self !! "token" = Some tok →
  let self' := res_self (run w0 self) in
  let r := process_update bot u w self' in
  res_outcome r = Returned tt ∧ res_self r = self' ∧
  (length (replies (res_trace r)) ≤ 1)%nat.
Proof.
  intros _ self' r. subst r. apply process_update_total.
Qed.

Lemma process_update_never_raises_witness :
  res_outcome (process_update sample_bot (inbound 42 (Some "start"))
                 offline_world started_api) = Returned tt.
Proof.
  refine (proj1 (process_update_never_raises sample_world sample_api
                   "110201543:AAHdqTcvCH1vGWJxfSeofSAs0K5PALDsaw" sample_bot
                   (inbound 42 (Some "start")) offline_world _)).
  vm_compute. reflexivity.
Defined.

(** X14: after a startup that succeeded, when the handler of a
    dispatched command raises, the chat gets no reply.  If the exception
    is a transport fault (raised by [send_message]) the error callback
    logs the line of its kind, once, after the effects of the handler;
    if it is anything else, a failure of the GET or a missing setting,
    the error callback is not reached and no such line is logged. *)
Theorem handler_failure_ends_in_silence w0 self tok bot u w name h e :
  settings self !! "token" = Some tok →
  validate_token tok = true →
  route (command_token (message u)) = Some (BoundMethod name) →
  Api_method name = Some h →
  let self' := res_self (run w0 self) in
  res_outcome (h bot u w self') = Raised e →
  let r := process_update bot u w self' in
  res_trace r
  = res_trace (h bot u w self') ++
    match fault_kind_of (exc_class e) with
    | Some k => [EvLog (fault_log k)]
    | None => []
    end ∧
  replies (res_trace r) = [] ∧
  (isinstance e TelegramError = false → fault_kind_of (exc_class e) = None).
Proof.
  intros Htok Hvalid Hroute Hm self'. subst self'.
  rewrite (run_result _ _ _ Htok Hvalid).
  cbn [res_self]. intros Hraised.
  rewrite (process_update_started _ _ _ _ _ _ _ Hroute Hm), Hraised.
  cbn [res_trace]. split_and!.
  - reflexivity.
  - rewrite replies_app, replies_fault_lines, app_nil_r.
    destruct (handler_replied_once_or_raised name h bot u w
                (running self tok) Hm) as [[Hret _] | (e' & _ & Hnone)];
      [ congruence | done ].
  - destruct e as [c args]. by destruct c.
Qed.

Lemma handler_failure_ends_in_silence_witness :
  res_trace (process_update sample_bot (inbound 42 (Some "version"))
               blocked_world started_api)
  = res_trace (version sample_bot (inbound 42 (Some "version")) blocked_world
                 started_api)
    ++ [EvLog "Error Unauthorized found!"].
Proof.
  refine (proj1 (handler_failure_ends_in_silence sample_world sample_api
                   "110201543:AAHdqTcvCH1vGWJxfSeofSAs0K5PALDsaw" sample_bot
                   (inbound 42 (Some "version")) blocked_world "version" version
                   (Exc Unauthorized "bot was blocked by the user") _ _ _ _ _)).
  - vm_compute. reflexivity.
  - vm_compute. reflexivity.
  - reflexivity.
  - reflexivity.
  - reflexivity.
Defined.

(** ** The context manager *)

(** X15: in [with api as target: body] the body is given [None], not the
    object, because [__enter__] returns nothing; the enter line is logged
    before the effects of the body and the exit line after them; an
    exception of the body is raised again after the exit line, since
    [__exit__] returns nothing either; the two methods leave the object
    as the body left it.  So [with Api(...) as bot: bot.run()] raises
    [AttributeError] and starts nothing. *)
Theorem with_statement_passes_none_and_reraises body w self :
  with_as body w self
  = Result (res_self (body PyNone w self))
      (EvLog "Motion api bot instance enter!"
       :: res_trace (body PyNone w self)
       ++ [EvLog "Motion api bot instance exit!"])
      (match res_outcome (body PyNone w self) with
       | Returned _ => Returned tt
       | Raised e => Raised e
       end) ∧
  with_as (λ target, call_on target "run" run) w self
  = Result self
      [EvLog "Motion api bot instance enter!";
       EvLog "Motion api bot instance exit!"]
      (Raised (Exc PyAttributeError "run")).
Proof.
  split.
  - unfold with_as, __enter__, __exit__, bind, logger_info, emit, ret.
    by destruct (body PyNone w self) as [s tr [[] | e]].
  - reflexivity.
Qed.

(** ** Construction: the log folder, the log file and the logger *)

Lemma dirname_aux_append a b :
  dirname_aux b = None → dirname_aux (a +:+ b) = dirname_aux a.
Proof.
  intros Hb. induction a as [ | c a IH ]; simpl; [ done | ]. by rewrite IH.
Qed.

Lemma dirname_aux_slash folder t :
  dirname_aux t = None → dirname_aux (folder +:+ "/" +:+ t) = Some folder.
Proof.
  intros Ht. induction folder as [ | c folder IH ].
  - change (dirname_aux (String "/" t) = Some ""). simpl. by rewrite Ht.
  - change (dirname_aux (String c (folder +:+ "/" +:+ t)) = Some (String c folder)).
    simpl. by rewrite IH.
Qed.

Lemma dirname_log_file name :
  dirname_aux name = None → dirname_aux (log_file_of name) = Some "log".
Proof.
  intros Hname. apply (dirname_aux_slash "log").
  by rewrite dirname_aux_append.
Qed.

Lemma log_file_is_not_log name : log_file_of name ≠ "log".
Proof. unfold log_file_of. cbn. discriminate. Qed.

Lemma getLogger_result name p :
  logging_getLogger name p
  = ({| proc_files := proc_files p;
        proc_loggers :=
          <[name := {| logger_level := level_at p name;
                       logger_handlers := handlers_before name p |}]>
            (proc_loggers p);
        proc_no_propagate :=
          match proc_loggers p !! name with
          | Some _ => proc_no_propagate p
          | None => proc_no_propagate p ∖ {[name]}
          end;
        proc_disable := proc_disable p |}, inl tt).
Proof.
  unfold logging_getLogger, handlers_before, level_at.
  destruct (proc_loggers p !! name) as [lg | ] eqn:Hlg; [ | done ].
  destruct p as [fs lgs np dis]. cbn in *. destruct lg. cbn. by rewrite insert_id.
Qed.

Lemma create_log_result name use_stdout use_file_log p :
  (use_file_log = true → file_log_possible name p) →
  __create_log name "log" use_stdout use_file_log p
  = (after_construction name use_stdout use_file_log p, inl tt).
Proof.
  intros Hfs. unfold __create_log, pbind. rewrite getLogger_result.
  unfold Logger_setLevel, after_construction, handlers_of_construction.
  cbn [proc_files proc_loggers proc_no_propagate proc_disable].
  rewrite alter_insert_eq. cbn [logger_handlers].
  destruct use_file_log.
  - destruct (Hfs eq_refl) as (Hname & Hlog & Hfile).
    unfold os_path_exists, os_makedirs, open_for_append, parent_node, pret,
      Logger_addHandler.
    cbn [proc_files proc_loggers proc_no_propagate proc_disable].
    fold (log_file_of name). rewrite (dirname_log_file _ Hname).
    assert (Hne : "log" ≠ log_file_of name)
      by (intros H; by apply (log_file_is_not_log name)).
    destruct (proc_files p !! "log") as [[] | ] eqn:Hfolder; [ | done | ];
      cbn [bool_decide negb]; cbn.
    + rewrite Hfolder.
      destruct (proc_files p !! log_file_of name) as [[] | ] eqn:Hf; [ done | | ];
        cbn; rewrite alter_insert_eq; cbn;
        (destruct use_stdout; cbn; rewrite ?alter_insert_eq; cbn;
         rewrite <- ?app_assoc; do 2 f_equal).
      all: try (rewrite (insert_id _ "log") by done).
      all: try (by rewrite insert_id).
      all: done.
    + rewrite Hfolder. cbn. rewrite lookup_insert_eq.
      rewrite lookup_insert_ne by done.
      destruct (proc_files p !! log_file_of name) as [[] | ] eqn:Hf; [ done | | ];
        cbn; rewrite alter_insert_eq; cbn;
        (destruct use_stdout; cbn; rewrite ?alter_insert_eq; cbn;
         rewrite <- ?app_assoc; do 2 f_equal).
      all: try (rewrite (insert_id _ (log_file_of name)); [ done | by rewrite lookup_insert_ne ]).
      all: done.
  - unfold Logger_addHandler, pret.
    destruct use_stdout; cbn; rewrite ?alter_insert_eq; cbn;
      by rewrite ?app_nil_r.
Qed.

Lemma init_result name s use_stdout use_file_log p :
  (use_file_log = true → file_log_possible name p) →
  __init__ name s use_stdout use_file_log p
  = (after_construction name use_stdout use_file_log p,
     inl {| logger := logger_view name
                        (after_construction name use_stdout use_file_log p);
            _log_folder := "log";
            updater := None;
            settings := s;
            _updater := None |}).
Proof.
  intros Hfs. unfold __init__, pbind. by rewrite (create_log_result _ _ _ _ Hfs).
Qed.

Lemma after_construction_logger name use_stdout use_file_log p :
  proc_loggers (after_construction name use_stdout use_file_log p) !! name
  = Some {| logger_level := DEBUG;
            logger_handlers :=
              handlers_before name p ++
              handlers_of_construction name use_stdout use_file_log |}.
Proof. unfold after_construction. cbn. apply lookup_insert_eq. Qed.

(** With [log] a regular file the log file cannot be opened, whatever
    else the directory holds. *)
Lemma create_log_not_a_directory name use_stdout p :
  dirname_aux name = None →
  proc_files p !! "log" = Some RegularFile →
  ∃ p', __create_log name "log" use_stdout true p = (p', inr NotADirectoryError) ∧
        proc_files p' = proc_files p ∧
        proc_loggers p' !! name
        = Some {| logger_level := DEBUG; logger_handlers := handlers_before name p |}.
Proof.
  intros Hname Hlog. eexists. split.
  - unfold __create_log, pbind. rewrite getLogger_result.
    unfold Logger_setLevel, os_path_exists, os_makedirs, open_for_append,
      parent_node, pret.
    cbn [proc_files proc_loggers proc_no_propagate proc_disable].
    fold (log_file_of name).
    rewrite (dirname_log_file _ Hname), Hlog. cbn.
    rewrite Hlog. reflexivity.
  - cbn. split; [ done | ]. rewrite alter_insert_eq. apply lookup_insert_eq.
Qed.

(** With the log file a directory it cannot be opened either. *)
Lemma create_log_is_a_directory name use_stdout p :
  dirname_aux name = None →
  proc_files p !! "log" ≠ Some RegularFile →
  proc_files p !! log_file_of name = Some Directory →
  ∃ p', __create_log name "log" use_stdout true p = (p', inr IsADirectoryError).
Proof.
  intros Hname Hlog Hfile.
  unfold __create_log, pbind. rewrite getLogger_result.
  unfold Logger_setLevel, os_path_exists, os_makedirs, open_for_append,
    parent_node, pret.
  cbn [proc_files proc_loggers proc_no_propagate proc_disable].
  fold (log_file_of name).
  rewrite (dirname_log_file _ Hname).
  assert (Hne : "log" ≠ log_file_of name)
    by (intros H; by apply (log_file_is_not_log name)).
  destruct (proc_files p !! "log") as [[] | ] eqn:Hfolder; [ | done | ]; cbn.
  - rewrite Hfolder, Hfile. by eexists.
  - rewrite Hfolder. cbn. rewrite lookup_insert_eq.
    rewrite lookup_insert_ne by done. rewrite Hfile. by eexists.
Qed.

(** A construction with file logging that succeeds found a place where
    the log file can be opened. *)
Lemma init_success_file_log_possible name s use_stdout p p' api :
  dirname_aux name = None →
  __init__ name s use_stdout true p = (p', inl api) →
  file_log_possible name p.
Proof.
  intros Hname Hinit. unfold file_log_possible. split; [ done | ].
  assert (proc_files p !! "log" = Some RegularFile ∨
          proc_files p !! "log" ≠ Some RegularFile) as [Hlog | Hlog]
    by (destruct (proc_files p !! "log") as [[] | ]; (by left) || by right).
  { destruct (create_log_not_a_directory name use_stdout p Hname Hlog)
      as (q & Hq & _).
    unfold __init__, pbind in Hinit. by rewrite Hq in Hinit. }
  split; [ done | ]. intros Hfile.
  destruct (create_log_is_a_directory name use_stdout p Hname Hlog Hfile)
    as (q & Hq).
  unfold __init__, pbind in Hinit. by rewrite Hq in Hinit.
Qed.

Lemma handler_lines_of_construction render msg name use_stdout use_file_log :
  handler_lines render msg (handlers_of_construction name use_stdout use_file_log)
  = (if use_file_log
     then [(FileSink (log_file_of name), render log_formatter msg)]
     else []) ++
    (if use_stdout then [(StdoutSink, msg)] else []).
Proof. by destruct use_file_log, use_stdout. Qed.

Lemma handler_lines_app render msg hs hs' :
  handler_lines render msg (hs ++ hs')
  = handler_lines render msg hs ++ handler_lines render msg hs'.
Proof. unfold handler_lines. apply omap_app. Qed.

Lemma call_handlers_silent render p msg chain :
  (∀ a, a ∈ chain → handlers_before a p = []) →
  call_handlers render p msg chain = [].
Proof.
  induction chain as [ | a chain IH ]; intros Hnone; [ done | ].
  cbn [call_handlers]. rewrite (Hnone a) by left.
  rewrite IH by (intros b Hb; apply Hnone; by right).
  cbn. by destruct (decide _).
Qed.

(** What an info line comes to after a construction, as long as INFO is
    not disabled and the logger hands its records on: the lines of the
    handlers the logger had, those of the handlers just added, and what
    the loggers above write. *)
Lemma written_after_construction render name use_stdout use_file_log p msg :
  (proc_disable p < INFO)%Z →
  name ∉ proc_no_propagate (after_construction name use_stdout use_file_log p) →
  written render (after_construction name use_stdout use_file_log p) name msg
  = handler_lines render msg (handlers_before name p) ++
    handler_lines render msg (handlers_of_construction name use_stdout use_file_log) ++
    call_handlers render (after_construction name use_stdout use_file_log p) msg
      (ancestors (after_construction name use_stdout use_file_log p) name).
Proof.
  intros Hdis Hprop. set (p' := after_construction name use_stdout use_file_log p).
  assert (Hlg := after_construction_logger name use_stdout use_file_log p).
  fold p' in Hlg.
  unfold written. rewrite Hlg.
  assert (effective_level p' name = DEBUG) as ->.
  { unfold effective_level. cbn [first_level]. unfold level_at. rewrite Hlg.
    cbn [logger_level]. by destruct (decide (DEBUG = NOTSET)). }
  rewrite bool_decide_eq_true_2
    by (split; [ exact Hdis | unfold DEBUG, INFO; lia ]).
  cbn [call_handlers]. unfold handlers_before at 1. rewrite Hlg.
  cbn [logger_handlers]. rewrite handler_lines_app, <- app_assoc.
  by destruct (decide (name ∈ proc_no_propagate p')).
Qed.

Lemma fresh_logger_propagates name use_stdout use_file_log p :
  proc_loggers p !! name = None →
  name ∉ proc_no_propagate (after_construction name use_stdout use_file_log p).
Proof.
  intros Hfresh. unfold after_construction. cbn. rewrite Hfresh.
  intros Hin. apply elem_of_difference in Hin as [_ Hin].
  apply Hin. by apply elem_of_singleton.
Qed.

(** X16: what a construction with file logging leaves behind when it
    succeeds, in a working directory that holds directories and regular
    files only: [log] is a directory and the log file [log/<module>.log]
    is in it.  No other path is touched, and where folder and file were
    there already the file system is left exactly as it was. *)
Theorem init_file_logging_prepares_folder name s use_stdout p p' api :
  dirname_aux name = None →
  __init__ name s use_stdout true p = (p', inl api) →
  settings api = s ∧ _updater api = None ∧
  proc_files p' !! "log" = Some Directory ∧
  proc_files p' !! log_file_of name = Some RegularFile ∧
  (∀ path, path ≠ "log" → path ≠ log_file_of name →
     proc_files p' !! path = proc_files p !! path) ∧
  (proc_files p !! "log" = Some Directory →
   proc_files p !! log_file_of name = Some RegularFile →
   proc_files p' = proc_files p).
Proof.
  intros Hname Hinit.
  pose proof (init_success_file_log_possible _ _ _ _ _ _ Hname Hinit) as Hfs.
  rewrite (init_result name s use_stdout true p (λ _, Hfs)) in Hinit.
  injection Hinit as <- <-.
  pose proof (log_file_is_not_log name) as Hne.
  cbn. split_and!; try done.
  - rewrite lookup_insert_ne by done. apply lookup_insert_eq.
  - apply lookup_insert_eq.
  - intros path H1 H2. by rewrite !lookup_insert_ne.
  - intros Hd Hf. rewrite (insert_id _ "log") by done. by rewrite insert_id.
Qed.

(** X17: without file logging the constructor cannot fail and does not
    touch the file system, whatever state the process is in; the object
    holds the settings it was given and no updater. *)
Theorem init_without_file_log_never_fails name s use_stdout p :
  ∃ p' api,
    __init__ name s use_stdout false p = (p', inl api) ∧
    proc_files p' = proc_files p ∧
    settings api = s ∧ _updater api = None ∧ updater api = None.
Proof.
  eexists _, _. split; [ by apply init_result | ]. by split_and!.
Qed.

(** X18: the folder is looked for with [os.path.exists], which a regular
    file called [log] satisfies: then no folder is made, opening the log
    file fails and so does the construction.  By then the logger has
    been fetched and set to DEBUG; no handler has been added to it. *)
Theorem init_fails_when_log_is_a_file name s use_stdout p :
  dirname_aux name = None →
  proc_files p !! "log" = Some RegularFile →
  proc_files p !! log_file_of name = None →
  ∃ p',
    __init__ name s use_stdout true p = (p', inr NotADirectoryError) ∧
    proc_files p' = proc_files p ∧
    proc_loggers p' !! name
    = Some {| logger_level := DEBUG; logger_handlers := handlers_before name p |}.
Proof.
  intros Hname Hlog _.
  destruct (create_log_not_a_directory name use_stdout p Hname Hlog)
    as (p' & Hp' & Hfiles & Hlogger).
  exists p'. split; [ | done ].
  unfold __init__, pbind. by rewrite Hp'.
Qed.

(** X19: in a process that has not used the logger of the module yet,
    the constructor returns the object [Api_init] describes: the
    settings as given, no updater, and a logger whose sinks are the log
    file (if asked for) followed by the console (if asked for). *)
Theorem init_in_fresh_process_is_Api_init name s use_stdout use_file_log p :
  proc_loggers p !! name = None →
  (use_file_log = true → file_log_possible name p) →
  ∃ p', __init__ name s use_stdout use_file_log p
        = (p', inl (Api_init name s use_stdout use_file_log)).
Proof.
  intros Hfresh Hfs. eexists. rewrite (init_result _ _ _ _ _ Hfs). do 2 f_equal.
  unfold Api_init, logger_view. rewrite after_construction_logger.
  unfold handlers_before, handlers_of_construction. rewrite Hfresh. cbn.
  by destruct use_file_log, use_stdout.
Qed.

(** X20: only the file handler is given the formatter.  With a logger
    set up by one construction, and INFO not disabled for the process,
    an info line reaches the log file formatted (time, level, module)
    and the console as the bare message, in that order; after them come
    the lines of the handlers of the loggers above (the root logger and
    the packages of the module), to which the record is handed on.
    Where those have no handler, the two lines are all, and with neither
    sink asked for the line reaches nothing. *)
Theorem fresh_logger_lines name s use_stdout use_file_log p render msg :
  proc_loggers p !! name = None →
  (use_file_log = true → file_log_possible name p) →
  (proc_disable p < INFO)%Z →
  ∃ p' api,
    __init__ name s use_stdout use_file_log p = (p', inl api) ∧
    written render p' name msg
    = (if use_file_log
       then [(FileSink (log_file_of name), render log_formatter msg)]
       else []) ++
      (if use_stdout then [(StdoutSink, msg)] else []) ++
      call_handlers render p' msg (ancestors p' name) ∧
    ((∀ above, above ∈ ancestors p' name → handlers_before above p' = []) →
     written render p' name msg
     = (if use_file_log
        then [(FileSink (log_file_of name), render log_formatter msg)]
        else []) ++
       (if use_stdout then [(StdoutSink, msg)] else [])).
Proof.
  intros Hfresh Hfs Hdis. eexists _, _. split; [ by apply init_result | ].
  rewrite written_after_construction
    by (done || by apply fresh_logger_propagates).
  rewrite handler_lines_of_construction.
  unfold handlers_before at 1 3. rewrite Hfresh. cbn [handler_lines omap app].
  rewrite <- app_assoc. split; [ done | ].
  intros Hsilent. rewrite call_handlers_silent by done. by rewrite app_nil_r.
Qed.

(** X21: the logger belongs to the process, not to the object: a
    construction appends its handlers to those the logger of the module
    already has and removes none, sets its level to DEBUG and leaves
    every other logger alone; the object sees the old sinks followed by
    the new ones. *)
Theorem init_adds_handlers name s use_stdout use_file_log p :
  (use_file_log = true → file_log_possible name p) →
  ∃ p' api,
    __init__ name s use_stdout use_file_log p = (p', inl api) ∧
    proc_loggers p' !! name
    = Some {| logger_level := DEBUG;
              logger_handlers :=
                handlers_before name p ++
                handlers_of_construction name use_stdout use_file_log |} ∧
    (∀ other, other ≠ name → proc_loggers p' !! other = proc_loggers p !! other) ∧
    logger_sinks (logger api)
    = (handler_sink <$> handlers_before name p) ++
      (handler_sink <$> handlers_of_construction name use_stdout use_file_log).
Proof.
  intros Hfs. eexists _, _. split; [ by apply init_result | ].
  split_and!.
  - apply after_construction_logger.
  - intros other Hne. cbn. by rewrite lookup_insert_ne.
  - cbn [logger logger_view logger_sinks].
    rewrite after_construction_logger. cbn. apply fmap_app.
Qed.

(** X22: so a second object in the same process doubles the output:
    with INFO not disabled, after two constructions with console logging
    every info line is written to the console twice by the logger of
    the module, where one construction writes it once; what the loggers
    above write comes after, and is the same in both cases when they are
    the same. *)
Theorem second_object_doubles_console_lines name s1 s2 p render msg :
  proc_loggers p !! name = None →
  (proc_disable p < INFO)%Z →
  ∃ p1 p2 api1 api2,
    __init__ name s1 true false p = (p1, inl api1) ∧
    __init__ name s2 true false p1 = (p2, inl api2) ∧
    written render p1 name msg
    = [(StdoutSink, msg)] ++ call_handlers render p1 msg (ancestors p1 name) ∧
    written render p2 name msg
    = [(StdoutSink, msg); (StdoutSink, msg)] ++
      call_handlers render p2 msg (ancestors p2 name).
Proof.
  intros Hfresh Hdis. eexists _, _, _, _.
  split; [ by apply init_result | ]. split; [ by apply init_result | ].
  set (p1 := after_construction name true false p).
  assert (Hprop1 : name ∉ proc_no_propagate p1)
    by by apply fresh_logger_propagates.
  assert (Hprop2 : name ∉ proc_no_propagate (after_construction name true false p1)).
  { unfold after_construction at 1. cbn [proc_no_propagate].
    unfold p1 at 1. rewrite after_construction_logger. exact Hprop1. }
  assert (handlers_before name p = []) as Hnone
    by (unfold handlers_before; by rewrite Hfresh).
  assert (handlers_before name p1 = handlers_of_construction name true false)
    as Hone.
  { unfold handlers_before at 1, p1. by rewrite after_construction_logger, Hnone. }
  split.
  - unfold p1. rewrite written_after_construction by done. by rewrite Hnone.
  - rewrite written_after_construction by done. by rewrite Hone.
Qed.

Lemma init_file_logging_prepares_folder_witness :
  ∃ p' api,
    __init__ "bot.api" sample_settings true true fresh_process = (p', inl api) ∧
    proc_files p' !! "log" = Some Directory ∧
    proc_files p' !! "log/bot.api.log" = Some RegularFile.
Proof.
  assert (Hinit : __init__ "bot.api" sample_settings true true fresh_process
                  = (after_construction "bot.api" true true fresh_process,
                     inl (Api_init "bot.api" sample_settings true true)))
    by (vm_compute; reflexivity).
  destruct (init_file_logging_prepares_folder "bot.api" sample_settings true
              fresh_process _ _ eq_refl Hinit) as (_ & _ & Hdir & Hfile & _).
  eexists _, _. exact (conj Hinit (conj Hdir Hfile)).
Defined.

Lemma init_fails_when_log_is_a_file_witness :
  ∃ p', __init__ "bot.api" sample_settings true true log_is_a_file
        = (p', inr NotADirectoryError).
Proof.
  destruct (init_fails_when_log_is_a_file "bot.api" sample_settings true
              log_is_a_file) as (p' & Hinit & _).
  - vm_compute. reflexivity.
  - vm_compute. reflexivity.
  - vm_compute. reflexivity.
  - exists p'. exact Hinit.
Defined.

Lemma init_in_fresh_process_is_Api_init_witness :
  ∃ p', __init__ "bot.api" sample_settings true false fresh_process
        = (p', inl sample_api).
Proof.
  destruct (init_in_fresh_process_is_Api_init "bot.api" sample_settings true
              false fresh_process) as [p' Hinit].
  - vm_compute. reflexivity.
  - discriminate.
  - exists p'. exact Hinit.
Defined.

Lemma fresh_logger_lines_witness :
  ∃ p' api,
    __init__ "bot.api" sample_settings true true configured_process = (p', inl api) ∧
    written sample_render p' "bot.api" "Received help command"
    = [(FileSink "log/bot.api.log",
        "[12:00:00]-[INFO]-[api]: Received help command");
       (StdoutSink, "Received help command");
       (StdoutSink, "Received help command")].
Proof.
  assert (Hposs : true = true → file_log_possible "bot.api" configured_process).
  { intros _. unfold file_log_possible. split_and!.
    - vm_compute. reflexivity.
    - vm_compute. discriminate.
    - vm_compute. discriminate. }
  destruct (fresh_logger_lines "bot.api" sample_settings true true
              configured_process sample_render "Received help command")
    as (p' & api & Hinit & Hlines & _).
  - vm_compute. reflexivity.
  - exact Hposs.
  - vm_compute. reflexivity.
  - exists p', api. split; [ exact Hinit | ].
    rewrite Hlines.
    rewrite (init_result _ _ _ _ _ Hposs) in Hinit.
    injection Hinit as <- _. vm_compute. reflexivity.
Defined.

Lemma init_adds_handlers_witness :
  ∃ p' api,
    __init__ "bot.api" sample_settings true false fresh_process = (p', inl api) ∧
    logger_sinks (logger api) = [StdoutSink].
Proof.
  destruct (init_adds_handlers "bot.api" sample_settings true false
              fresh_process) as (p' & api & Hinit & _ & _ & Hsinks).
  - discriminate.
  - exists p', api. exact (conj Hinit Hsinks).
Defined.

Lemma second_object_doubles_console_lines_witness :
  ∃ p1 p2 api1 api2,
    __init__ "bot.api" sample_settings true false fresh_process = (p1, inl api1) ∧
    __init__ "bot.api" ∅ true false p1 = (p2, inl api2) ∧
    written sample_render p1 "bot.api" "hello" = [(StdoutSink, "hello")] ∧
    written sample_render p2 "bot.api" "hello"
    = [(StdoutSink, "hello"); (StdoutSink, "hello")].
Proof.
  destruct (second_object_doubles_console_lines "bot.api" sample_settings ∅
              fresh_process sample_render "hello")
    as (p1 & p2 & api1 & api2 & H1 & H2 & Hone & Htwo).
  - vm_compute. reflexivity.
  - vm_compute. reflexivity.
  - exists p1, p2, api1, api2. split; [ exact H1 | ]. split; [ exact H2 | ].
    rewrite Hone, Htwo.
    rewrite init_result in H1 by discriminate. injection H1 as <- _.
    rewrite init_result in H2 by discriminate. injection H2 as <- _.
    split; vm_compute; reflexivity.
Defined.
